(** * art: install rules, archive extraction and the artifact cache

    A shallow embedding of [art/command_line.py] (the [install] and
    [download] commands of the GitLab artifact client) together with the
    properties of its install-rule compiler, its archive installer and
    its download cache.

    Conventions.
    - Python [str] values are [string]; the path separator is the POSIX
      one, ["/"], which is also what the source hard-codes in
      [source.endswith('/')] and [member.filename.endswith('/')].
    - Python integers are [Z]; bit operations are [Z.shiftr], [Z.land],
      [Z.lor].
    - Effects (console output, directory creation, file writes, chmod)
      go through an interface [OS]; a command is a function from a world
      to a world and either an exception or a value, so that an
      exception keeps the effects that happened before it. *)

From Stdlib Require Import ZArith String Ascii List Bool Lia.
From Stdlib Require Import Strings.Byte DecimalString DecimalPos DecimalZ.
From stdpp Require Import base option gmap strings.
Import ListNotations.

Local Open Scope string_scope.
Local Open Scope Z_scope.

(** ** Python string primitives used by the source *)

Module Py.

Definition sep : ascii := "/"%char.

(** [len(s)] *)
Definition len (s : string) : nat := String.length s.

(** [s[n:]] for [0 <= n]: the string without its first [n] characters
    (empty when [n] is past the end). *)
Fixpoint slice_from (s : string) (n : nat) : string :=
  match n, s with
  | O, _ => s
  | S _, EmptyString => EmptyString
  | S n', String _ s' => slice_from s' n'
  end.

(** [s[:n]] for [0 <= n]. *)
Fixpoint slice_to (s : string) (n : nat) : string :=
  match n, s with
  | O, _ => EmptyString
  | S _, EmptyString => EmptyString
  | S n', String c s' => String c (slice_to s' n')
  end.

(** [f.startswith(s)] *)
Definition startswith (f s : string) : bool := String.prefix s f.

(** [s.endswith(t)] *)
Definition endswith (s t : string) : bool :=
  (len t <=? len s)%nat && String.eqb (slice_from s (len s - len t)) t.

(** [c in s] for a one-character [c]. *)
Fixpoint contains (c : ascii) (s : string) : bool :=
  match s with
  | EmptyString => false
  | String c' s' => Ascii.eqb c' c || contains c s'
  end.

(** [s.rfind(c) + 1]: one past the last occurrence of [c], [0] when
    there is none. *)
Fixpoint rfind_succ (c : ascii) (s : string) : nat :=
  match s with
  | EmptyString => O
  | String c' s' =>
      match rfind_succ c s' with
      | O => if Ascii.eqb c' c then 1%nat else O
      | S k => S (S k)
      end
  end.

(** [s.rstrip(c)] for a one-character [c]. *)
Fixpoint rstrip (c : ascii) (s : string) : string :=
  match s with
  | EmptyString => EmptyString
  | String c' s' =>
      match rstrip c s' with
      | EmptyString => if Ascii.eqb c' c then EmptyString else String c' EmptyString
      | r => String c' r
      end
  end.

(** [s == c * len(s)] *)
Fixpoint all_char (c : ascii) (s : string) : bool :=
  match s with
  | EmptyString => true
  | String c' s' => Ascii.eqb c' c && all_char c s'
  end.

(** [s.split(c)] for a one-character separator: always at least one
    field. *)
Fixpoint split (c : ascii) (s : string) : list string :=
  match s with
  | EmptyString => [EmptyString]
  | String c' s' =>
      if Ascii.eqb c' c then EmptyString :: split c s'
      else match split c s' with
           | [] => [String c' EmptyString]
           | w :: ws => String c' w :: ws
           end
  end.

(** An octal literal: [oct "755"] is [0o755]. *)
Fixpoint oct_digits (acc : Z) (s : string) : Z :=
  match s with
  | EmptyString => acc
  | String c s' => oct_digits (8 * acc + (Z.of_nat (nat_of_ascii c) - 48)) s'
  end.

Definition oct (s : string) : Z := oct_digits 0 s.

(** ['{}'.format(n)] for an integer [n]. *)
Definition format_int (n : Z) : string :=
  NilZero.string_of_int (Z.to_int n).

End Py.

(** ** [os.path] on a POSIX system ([posixpath]) *)

Module PosixPath.

(** [os.path.join(a, b)]: an absolute [b] replaces [a]; otherwise [b]
    is appended, with a separator unless [a] is empty or already ends
    in one. *)
Definition join (a b : string) : string :=
  if Py.startswith b "/" then b
  else if (String.eqb a EmptyString || Py.endswith a "/") then a ++ b
  else a ++ "/" ++ b.

(** [os.path.dirname(p)] *)
Definition dirname (p : string) : string :=
  let i := Py.rfind_succ Py.sep p in
  let head := Py.slice_to p i in
  if negb (String.eqb head EmptyString) && negb (Py.all_char Py.sep head)
  then Py.rstrip Py.sep head
  else head.

(** [os.path.isabs(p)] *)
Definition isabs (p : string) : bool := Py.startswith p "/".

(** The loop of [os.path.normpath] over the components, with the
    kept components in reverse order. *)
Fixpoint norm_comps (absolute : bool) (comps : list string)
    (rev_new : list string) : list string :=
  match comps with
  | [] => rev rev_new
  | comp :: rest =>
      if String.eqb comp EmptyString || String.eqb comp "." then
        norm_comps absolute rest rev_new
      else if negb (String.eqb comp "..") then
        norm_comps absolute rest (comp :: rev_new)
      else
        match rev_new with
        | [] => if absolute then norm_comps absolute rest rev_new
                else norm_comps absolute rest (comp :: rev_new)
        | top :: below =>
            if String.eqb top ".." then norm_comps absolute rest (comp :: rev_new)
            else norm_comps absolute rest below
        end
  end.

(** [os.path.normpath(path)] *)
Definition normpath (path : string) : string :=
  if String.eqb path EmptyString then "."
  else
    let initial_slashes : nat :=
      if Py.startswith path "/" then
        if Py.startswith path "//" && negb (Py.startswith path "///")
        then 2%nat else 1%nat
      else 0%nat in
    let comps := Py.split Py.sep path in
    let new_comps := norm_comps (negb (Nat.eqb initial_slashes 0)) comps [] in
    let body := String.concat "/" new_comps in
    let res :=
      match initial_slashes with
      | O => body
      | 1%nat => "/" ++ body
      | _ => "//" ++ body
      end in
    if String.eqb res EmptyString then "." else res.

(** [p] names [root] itself or something below it, after both are
    normalised: the usual containment test on paths. Below the current
    directory is every relative path that does not climb out of it. *)
Definition is_under (root p : string) : bool :=
  let r := normpath root in
  let q := normpath p in
  String.eqb q r
  || String.eqb r "." && negb (isabs q)
     && negb (String.eqb q "..") && negb (Py.startswith q "../")
  || Py.startswith q (if Py.endswith r "/" then r else r ++ "/").

End PosixPath.

(** ** Lock-file entries and cache names *)

(** An entry of [artifacts.lock.yml]; [entry_install] is its ["install"]
    mapping, in the order its items are iterated. *)
Record entry : Type := {
  project : string;
  ref : string;
  job : string;
  job_id : Z;
  entry_install : list (string * string)
}.

Definition zip_name (project : string) (job_id : Z) : string :=
  PosixPath.join project (Py.format_int job_id ++ ".zip").

(** ** The install-rule compiler ([install], the loop over
       [entry['install'].items()]) *)

(** An install rule is the pair of closures the source appends to
    [installs]: [(match, translate)]. *)
Definition rule : Type := (string -> bool) * (string -> string).

Definition compile_rule (source destination : string) : rule :=
  if String.eqb source "." then
    (* "copy all" filter *)
    (fun f => true,
     fun f => PosixPath.join destination f)
  else if Py.endswith source "/" then
    (* 1:1 directory filter *)
    (fun f => Py.startswith f source,
     fun f => PosixPath.join destination (Py.slice_from f (Py.len source)))
  else
    (* 1:1 file filter *)
    (fun f => String.eqb f source,
     fun f => destination).

(** [installs]: one rule per item of the mapping, in the mapping's
    order. *)
Fixpoint compile_installs (items : list (string * string)) : list rule :=
  match items with
  | [] => []
  | (source, destination) :: rest =>
      compile_rule source destination :: compile_installs rest
  end.


(** ** [stat]: mode constants and [stat.filemode] *)

Module Stat.

Definition S_IFLNK : Z := Eval cbv in Py.oct "120000".
Definition S_IFSOCK : Z := Eval cbv in Py.oct "140000".
Definition S_IFREG : Z := Eval cbv in Py.oct "100000".
Definition S_IFBLK : Z := Eval cbv in Py.oct "060000".
Definition S_IFDIR : Z := Eval cbv in Py.oct "040000".
Definition S_IFCHR : Z := Eval cbv in Py.oct "020000".
Definition S_IFIFO : Z := Eval cbv in Py.oct "010000".
Definition S_ISUID : Z := Eval cbv in Py.oct "4000".
Definition S_ISGID : Z := Eval cbv in Py.oct "2000".
Definition S_ISVTX : Z := Eval cbv in Py.oct "1000".
Definition S_IRUSR : Z := Eval cbv in Py.oct "0400".
Definition S_IWUSR : Z := Eval cbv in Py.oct "0200".
Definition S_IXUSR : Z := Eval cbv in Py.oct "0100".
Definition S_IRGRP : Z := Eval cbv in Py.oct "0040".
Definition S_IWGRP : Z := Eval cbv in Py.oct "0020".
Definition S_IXGRP : Z := Eval cbv in Py.oct "0010".
Definition S_IROTH : Z := Eval cbv in Py.oct "0004".
Definition S_IWOTH : Z := Eval cbv in Py.oct "0002".
Definition S_IXOTH : Z := Eval cbv in Py.oct "0001".

(** [stat.S_IFMT(mode)]: [mode & 0o170000] *)
Definition S_IFMT (mode : Z) : Z := Z.land mode (Py.oct "170000").

(** One permission column: the first entry whose bits are all set
    gives the character, [default] when none is. *)
Fixpoint filemode_column (default : string) (mode : Z)
    (table : list (Z * string)) : string :=
  match table with
  | [] => default
  | (bit, char) :: rest =>
      if Z.land mode bit =? bit then char
      else filemode_column default mode rest
  end.

Definition filetype_table : list (Z * string) :=
  [ (S_IFREG, "-"); (S_IFDIR, "d"); (S_IFLNK, "l"); (S_IFBLK, "b");
    (S_IFCHR, "c"); (S_IFIFO, "p"); (S_IFSOCK, "s") ].

(** The file-type character: the entry whose type is the type field of
    the mode, ["?"] for a type field that is none of them. *)
Fixpoint filetype_column (format : Z) (table : list (Z * string)) : string :=
  match table with
  | [] => "?"
  | (type, char) :: rest =>
      if format =? type then char else filetype_column format rest
  end.

Definition permission_tables : list (list (Z * string)) :=
  [ [ (S_IRUSR, "r") ];
    [ (S_IWUSR, "w") ];
    [ (Z.lor S_IXUSR S_ISUID, "s"); (S_ISUID, "S"); (S_IXUSR, "x") ];
    [ (S_IRGRP, "r") ];
    [ (S_IWGRP, "w") ];
    [ (Z.lor S_IXGRP S_ISGID, "s"); (S_ISGID, "S"); (S_IXGRP, "x") ];
    [ (S_IROTH, "r") ];
    [ (S_IWOTH, "w") ];
    [ (Z.lor S_IXOTH S_ISVTX, "t"); (S_ISVTX, "T"); (S_IXOTH, "x") ] ].

(** [stat.filemode(mode)], as CPython computes it: the ten-character
    form, ["-rwxr-xr-x"]. The first character is decided by the type
    field [S_IFMT(mode)] as a whole, an unknown type shows as ["?"];
    each of the nine others by the bits of its column, a missing
    permission as ["-"]. *)
Definition filemode (mode : Z) : string :=
  filetype_column (S_IFMT mode) filetype_table
  ++ String.concat EmptyString (map (filemode_column "-" mode) permission_tables).

End Stat.

(** ** Commands: state with exceptions *)

Inductive exn : Type :=
| KeyError (key : string)
| OSError (what : string)
| BadZipFile
| ConnectionError (what : string)
| UnboundLocalError (name : string).

(** A command over worlds [W]: it always returns the world it leaves
    behind, with the exception it raised or the value it computed. *)
Definition io (W A : Type) : Type := W -> W * (exn + A).

Definition ret {W A} (a : A) : io W A := fun w => (w, inr a).

Definition raise {W A} (e : exn) : io W A := fun w => (w, inl e).

Definition bind {W A B} (c : io W A) (k : A -> io W B) : io W B :=
  fun w =>
    match c w with
    | (w', inl e) => (w', inl e)
    | (w', inr a) => k a w'
    end.

Declare Scope io_scope.
Delimit Scope io_scope with io.
Notation "c1 ;; c2" := (bind c1 (fun _ => c2))
  (at level 100, c2 at level 200, right associativity) : io_scope.
Notation "x <- c1 ;; c2" := (bind c1 (fun x => c2))
  (at level 100, c1 at next level, c2 at level 200, right associativity) : io_scope.

(** [for x in l: body(x)] *)
Fixpoint for_each {W A} (l : list A) (body : A -> io W unit) : io W unit :=
  match l with
  | [] => ret tt
  | x :: rest => (body x ;; for_each rest body)%io
  end.

(** The world a command leaves and what it returned. *)
Definition exec {W A} (c : io W A) (w : W) : W := fst (c w).
Definition outcome {W A} (c : io W A) (w : W) : exn + A := snd (c w).

(** ** The operating-system interface of the installer

    [click.echo], [_paths.mkdirs], the [open(target, 'wb')] /
    [shutil.copyfileobj] pair and [os.chmod]. Each may raise. *)

Class OS : Type := {
  world : Type;
  click_echo : string -> io world unit;
  paths_mkdirs : string -> io world unit;
  write_file : string -> list byte -> io world unit;
  os_chmod : string -> Z -> io world unit
}.

(** ** Archives ([zipfile]) *)

(** The fields of a [ZipInfo] the installer reads, with the bytes that
    [archive.open(member)] yields for it. *)
Record ZipInfo : Type := {
  filename : string;
  create_system : Z;
  external_attr : Z;
  payload : list byte
}.

(** A [ZipFile]: its [infolist()]. *)
Definition ZipFile : Type := list ZipInfo.

(** [archive.open(member).read()] *)
Definition archive_open (archive : ZipFile) (member : ZipInfo) : list byte :=
  payload member.

(** [S_IRWXUGO = 0o0777] *)
Definition S_IRWXUGO : Z := Eval cbv in Py.oct "0777".

(** ** [install_member] *)

(** The first half of [install_member]: [(access, filemode_str)], with
    [access = None] when the member was not created on Unix. *)
Definition member_access (member : ZipInfo) : option Z * string :=
  (* if create_system is Unix (3), external_attr contains filesystem permissions *)
  if create_system member =? 3 then
    let filemode := Z.shiftr (external_attr member) 16 in
    (* Keep only the normal permissions bits;
       ignore special bits like setuid, setgid, sticky *)
    let access := Z.land filemode S_IRWXUGO in
    (Some access, "   " ++ Stat.filemode (Z.lor (Stat.S_IFMT filemode) access))
  else (None, EmptyString).

Section Installer.

Context {os : OS}.

Local Open Scope io_scope.

Definition install_member (archive : ZipFile) (member : ZipInfo)
    (target : string) : io world unit :=
  let '(access, filemode_str) := member_access member in
  click_echo ("* install: " ++ filename member ++ " => " ++ target ++ filemode_str) ;;
  (if Py.contains Py.sep target
   then paths_mkdirs (PosixPath.dirname target)
   else ret tt) ;;
  write_file target (archive_open archive member) ;;
  match access with
  | Some a => os_chmod target a
  | None => ret tt
  end.

(** The inner loop of [install]: [for match, translate in installs]. *)
Definition install_rules (installs : list rule) (archive : ZipFile)
    (member : ZipInfo) : io world unit :=
  for_each installs (fun r =>
    let '(match_, translate) := r in
    if match_ (filename member) then
      let target := translate (filename member) in
      install_member archive member target
    else ret tt).

(** The body of [for member in archive.infolist()]. *)
Definition install_one (installs : list rule) (archive : ZipFile)
    (member : ZipInfo) : io world unit :=
  if Py.endswith (filename member) "/" then
    (* skip directories, they will be created as-is *)
    ret tt
  else install_rules installs archive member.

(** iterate over the zip archive *)
Definition install_archive (installs : list rule) (archive : ZipFile)
    : io world unit :=
  for_each archive (install_one installs archive).

(** [install]: every entry of the lock file in turn. [opened] stands for
    [zipfile.ZipFile(_cache.get(filename))]: the archive cached under a
    name, or the exception raised for it ([KeyError] on a miss). After
    the rules are built the source deletes the loop variables
    [source] and [destination]; for an empty mapping the loop never
    bound them, and the [del] raises. *)
Definition install (artifacts_lock : list entry)
    (opened : string -> exn + ZipFile) : io world unit :=
  for_each artifacts_lock (fun e =>
    (* convert the "install" dictionary to list of (match, translate) *)
    let installs := compile_installs (entry_install e) in
    (* make sure there are no bugs in the lambdas above *)
    match entry_install e with
    | [] => raise (UnboundLocalError "source")
    | _ :: _ =>
        (* open the artifacts.zip archive *)
        let filename := zip_name (project e) (job_id e) in
        match opened filename with
        | inl err => raise err
        | inr archive => install_archive installs archive
        end
    end).

End Installer.

(** ** An observing world: the sequence of calls made *)

Inductive call : Type :=
| Echo (line : string)
| Mkdirs (dir : string)
| WriteFile (target : string) (data : list byte)
| Chmod (target : string) (mode : Z).

Definition emit (c : call) : io (list call) unit :=
  fun w => ((w ++ [c])%list, inr tt).

#[export] Instance trace_os : OS := {|
  world := list call;
  click_echo line := emit (Echo line);
  paths_mkdirs dir := emit (Mkdirs dir);
  write_file target data := emit (WriteFile target data);
  os_chmod target mode := emit (Chmod target mode)
|}.


(** The installed members: the [WriteFile] calls of a trace. *)
Definition writes (t : list call) : list (string * list byte) :=
  flat_map (fun c => match c with
                     | WriteFile target data => [(target, data)]
                     | _ => []
                     end) t.

Definition chmods (t : list call) : list (string * Z) :=
  flat_map (fun c => match c with
                     | Chmod target mode => [(target, mode)]
                     | _ => []
                     end) t.

(** ** A storing world: files by path

    A flat store from the path string as given to the content and the
    permission bits of the file there. A new file gets [default_mode]
    (what the process umask leaves); rewriting a file keeps its mode, as
    [open(target, 'wb')] does. Console output and directories leave the
    store as it is. *)

Record file : Type := { data : list byte; mode : Z }.

Definition mem_write (default_mode : Z) (target : string) (content : list byte)
    : io (gmap string file) unit :=
  fun fs =>
    let m := match fs !! target with
             | Some f => mode f
             | None => default_mode
             end in
    (<[target := {| data := content; mode := m |}]> fs, inr tt).

Definition mem_chmod (target : string) (m : Z) : io (gmap string file) unit :=
  fun fs =>
    match fs !! target with
    | Some f => (<[target := {| data := data f; mode := m |}]> fs, inr tt)
    | None => (fs, inl (OSError target))
    end.

(** Modelled from the spec: [_paths.mkdirs], which creates all the
    intermediate directories and succeeds if they already exist. The
    flat store has no directories of its own, so nothing changes. *)
Definition mem_mkdirs (dir : string) : io (gmap string file) unit := ret tt.

Definition mem_os (default_mode : Z) : OS := {|
  world := gmap string file;
  click_echo line := ret tt;
  paths_mkdirs := mem_mkdirs;
  write_file := mem_write default_mode;
  os_chmod := mem_chmod
|}.

(** ** The download cache ([_cache])

    The [_cache] module is used by [download] and [install] but is not
    among the sources at hand; its operations follow the written
    contract of the cache: [get] and the [save] scope. *)

Module Cache.

(** Modelled from the spec: the state of the [_cache] module. [entries]
    are the backing files by key; [temps] are the temporary locations
    against which sinks are opened, by the key being saved. *)
Record store : Type := {
  entries : gmap string (list byte);
  temps : gmap string (list byte)
}.

Definition empty : store := {| entries := ∅; temps := ∅ |}.

(** Modelled from the spec: [_cache.get(key)], the bytes of the backing
    file of [key]; fails with NotFound ([KeyError]) if no backing file
    exists, and constructs nothing on failure. *)
Definition get (key : string) : io store (list byte) :=
  fun st =>
    match entries st !! key with
    | Some content => (st, inr content)
    | None => (st, inl (KeyError key))
    end.

(** Modelled from the spec: entering the [save] scope of [_cache]; the
    sink is opened against a temporary location, empty at first. *)
Definition open_temp (key : string) : io store unit :=
  fun st => ({| entries := entries st; temps := <[key := []]> (temps st) |}, inr tt).

(** Modelled from the spec: [f.write(chunk)] on the sink of the [save]
    scope of [_cache]; the chunk goes to the temporary location. *)
Definition sink_write (key : string) (chunk : list byte) : io store unit :=
  fun st =>
    match temps st !! key with
    | Some sofar =>
        ({| entries := entries st;
            temps := <[key := (sofar ++ chunk)%list]> (temps st) |}, inr tt)
    | None => (st, inl (OSError key))
    end.

(** Modelled from the spec: clean completion of the [save] scope of
    [_cache]; the temporary file is promoted, in one step, to the
    backing path of the key. *)
Definition promote (key : string) : io store unit :=
  fun st =>
    match temps st !! key with
    | Some content =>
        ({| entries := <[key := content]> (entries st);
            temps := delete key (temps st) |}, inr tt)
    | None => (st, inl (OSError key))
    end.

(** Modelled from the spec: abnormal termination of the writer inside
    the [save] scope of [_cache]; the temporary file is discarded. *)
Definition discard (key : string) : io store unit :=
  fun st => ({| entries := entries st; temps := delete key (temps st) |}, inr tt).

(** Modelled from the spec: [_cache.save_file(key)] as used in
    [with _cache.save_file(filename) as f: body]. The body gets the
    sink's [write]; on clean completion the temporary file is promoted,
    on an exception it is discarded and the exception goes on. *)
Definition save_file (key : string)
    (body : (list byte -> io store unit) -> io store unit) : io store unit :=
  fun st =>
    let '(st1, _) := open_temp key st in
    match body (sink_write key) st1 with
    | (st2, inr tt) => promote key st2
    | (st2, inl e) => (fst (discard key st2), inl e)
    end.

End Cache.

(** ** [download] *)

(** What the server does for [job.artifacts(streamed=True, action=...)]:
    the chunks it delivers and, when the transfer breaks, the exception
    raised after them. *)
Definition response : Type := list (list byte) * option exn.

Definition job_artifacts {W} (r : response) (action : list byte -> io W unit)
    : io W unit :=
  (for_each (fst r) action ;;
   match snd r with
   | Some e => raise e
   | None => ret tt
   end)%io.

(** The world of [download]: the cache and the console. *)
Record dl_world : Type := {
  dl_cache : Cache.store;
  dl_console : list string
}.

Definition dl_echo (line : string) : io dl_world unit :=
  fun w => ({| dl_cache := dl_cache w;
               dl_console := (dl_console w ++ [line])%list |}, inr tt).

Definition on_cache {A} (c : io Cache.store A) : io dl_world A :=
  fun w =>
    let '(st, r) := c (dl_cache w) in
    ({| dl_cache := st; dl_console := dl_console w |}, r).

Section Download.

(** [gitlab.projects.get(project).jobs.get(job_id).artifacts]: the
    server's answer for a project and a job. *)
Variable gitlab : string -> Z -> response.

Definition download_entry (e : entry) : io dl_world unit :=
  let filename := zip_name (project e) (job_id e) in
  fun w =>
    match on_cache (Cache.get filename) w with
    | (w1, inl (KeyError _)) =>
        (dl_echo ("* " ++ project e ++ ": " ++ Py.format_int (job_id e)
                    ++ " => downloading...") ;;
         on_cache (Cache.save_file filename
                     (job_artifacts (gitlab (project e) (job_id e)))) ;;
         dl_echo ("* " ++ project e ++ ": " ++ Py.format_int (job_id e)
                    ++ " => downloaded."))%io w1
    | (w1, inl other) => (w1, inl other)
    | (w1, inr _) =>
        dl_echo ("* " ++ project e ++ ": " ++ Py.format_int (job_id e)
                   ++ " => present") w1
    end.

Definition download (artifacts_lock : list entry) : io dl_world unit :=
  for_each artifacts_lock download_entry.

End Download.


(** ** Reading aids for the statements *)

(** The rules of [installs] whose matcher accepts [f], in order. *)
Definition matching (installs : list rule) (f : string) : list rule :=
  List.filter (fun r => fst r f) installs.

(** The calls one [install_member] makes when none of them raises. *)
Definition member_calls (archive : ZipFile) (member : ZipInfo)
    (target : string) : list call :=
  ([Echo ("* install: " ++ filename member ++ " => " ++ target
            ++ snd (member_access member))]
   ++ (if Py.contains Py.sep target
       then [Mkdirs (PosixPath.dirname target)] else [])
   ++ [WriteFile target (archive_open archive member)]
   ++ match fst (member_access member) with
      | Some a => [Chmod target a]
      | None => []
      end)%list.

(** ** Configuration and the GitLab client ([get_gitlab],
       [is_using_job_token]) *)

(** What [_config.load()] returns. *)
Record config : Type := {
  gitlab_url : string;
  token_type : string;
  token : string
}.

(** The attributes of a [gitlab.Gitlab] client that the source sets and
    reads; a token that was not given is [None]. *)
Record Gitlab : Type := {
  url : string;
  private_token : option string;
  oauth_token : option string;
  job_token : option string
}.

(** What the commands raise besides the exceptions of the cache and of
    the operating system. *)
Inductive failure : Type :=
| ConfigException (field message : string)
| ClickException (message : string)
| Raised (e : exn).

Definition get_gitlab (cfg : config) : failure + Gitlab :=
  if String.eqb (token_type cfg) "private" then
    inr {| url := gitlab_url cfg; private_token := Some (token cfg);
           oauth_token := None; job_token := None |}
  else if String.eqb (token_type cfg) "job" then
    inr {| url := gitlab_url cfg; private_token := None;
           oauth_token := None; job_token := Some (token cfg) |}
  else
    inl (ConfigException "token_type" ("Unknown token type: " ++ token_type cfg)).

Definition is_not_none {A} (o : option A) : bool :=
  match o with
  | Some _ => true
  | None => false
  end.

Definition is_using_job_token (gitlab : Gitlab) : bool :=
  (* private and oauth tokens will be used, if available *)
  if is_not_none (private_token gitlab) || is_not_none (oauth_token gitlab) then
    false
  else is_not_none (job_token gitlab).

(** ** [get_ref_last_successful_job] *)

(** A job as listed for a pipeline: its [id] and [name]. *)
Record gl_job : Type := { gl_job_id : Z; gl_job_name : string }.

(** A pipeline: what [pipeline.jobs.list(scope='success')] yields. *)
Record gl_pipeline : Type := { success_jobs : list gl_job }.

(** A project: its [path_with_namespace] and, for a ref, what
    [project.pipelines.list(ref=ref, order_by='id', sort='desc')]
    yields, in the order the server sends it. *)
Record gl_project : Type := {
  path_with_namespace : string;
  pipelines : string -> list gl_pipeline
}.

(** [for job in jobs: if job.name == job_name: return ...] *)
Fixpoint first_named (job_name : string) (jobs : list gl_job) : option Z :=
  match jobs with
  | [] => None
  | j :: rest =>
      if String.eqb (gl_job_name j) job_name then Some (gl_job_id j)
      else first_named job_name rest
  end.

(** [for pipeline in pipelines: ...] *)
Fixpoint search_pipelines (job_name : string) (ps : list gl_pipeline)
    : option Z :=
  match ps with
  | [] => None
  | p :: rest =>
      match first_named job_name (success_jobs p) with
      | Some i => Some i
      | None => search_pipelines job_name rest
      end
  end.

(** The result is the [id] of the lazy [ProjectJob] the source returns,
    which is all [update] reads of it. *)
Definition get_ref_last_successful_job (proj : gl_project)
    (ref job_name : string) : failure + Z :=
  match search_pipelines job_name (pipelines proj ref) with
  | Some i => inr i
  | None =>
      inl (ClickException
             ("Could not find latest successful '" ++ job_name ++ "' job for "
                ++ path_with_namespace proj ++ " ref " ++ ref))
  end.

(** ** [main]: the cache directory *)

(** The value of [_paths.cache_dir] after [main(cache)], from the
    environment, the [--cache] option and the value before. *)
Definition main (environ : gmap string string) (cache : option string)
    (cache_dir : string) : string :=
  (* we change the default when running under CI... *)
  let cache_dir :=
    if is_not_none (environ !! "GITLAB_CI") then ".art-cache" else cache_dir in
  (* ...but command-line options always take precedence *)
  match cache with
  | Some dir => dir
  | None => cache_dir
  end.

(** ** [update] *)

(** The world of [update]: the lock file (absent or its entries) and
    the lines written by [click.echo]. *)
Record up_world : Type := {
  lock_file : option (list entry);
  up_console : list string
}.

(** The loop of [update] over the loaded entries. [projects_get] is
    [gitlab.projects.get]; an entry's [job_id] is assigned, whatever it
    was, and a line is written for it. The loop stops at the first
    entry that cannot be resolved. *)
Fixpoint update_entries (projects_get : string -> exn + gl_project)
    (artifacts : list entry) (console : list string)
    : list string * (failure + list entry) :=
  match artifacts with
  | [] => (console, inr [])
  | e :: rest =>
      match projects_get (project e) with
      | inl err => (console, inl (Raised err))
      | inr proj =>
          match get_ref_last_successful_job proj (ref e) (job e) with
          | inl f => (console, inl f)
          | inr i =>
              let e' := {| project := project e; ref := ref e; job := job e;
                           job_id := i; entry_install := entry_install e |} in
              let line := "* " ++ project e ++ ": " ++ ref e ++ " => "
                            ++ Py.format_int i in
              match update_entries projects_get rest (console ++ [line])%list with
              | (console', inl f) => (console', inl f)
              | (console', inr rest') => (console', inr (e' :: rest'))
              end
          end
      end
  end.

(** [update], with [artifacts] for [_yaml.load(_paths.artifacts_file)];
    [_yaml.save] replaces the lock file. *)
Definition update (cfg : config) (projects_get : string -> exn + gl_project)
    (artifacts : list entry) (w : up_world) : up_world * (failure + unit) :=
  match get_gitlab cfg with
  | inl f => (w, inl f)
  | inr gitlab =>
      if is_using_job_token gitlab then
        (w, inl (ConfigException "token_type"
                   "A job token cannot be used to update artifacts"))
      else
        match update_entries projects_get artifacts (up_console w) with
        | (console, inl f) =>
            ({| lock_file := lock_file w; up_console := console |}, inl f)
        | (console, inr locked) =>
            ({| lock_file := Some locked; up_console := console |}, inr tt)
        end
  end.

(** ** [download] from its first line *)

(** [download] with its call of [get_gitlab]; the loop is [download]
    above. *)
Definition download_command (cfg : config) (server : string -> Z -> response)
    (artifacts_lock : list entry) (w : dl_world) : dl_world * (failure + unit) :=
  match get_gitlab cfg with
  | inl f => (w, inl f)
  | inr _ =>
      match download server artifacts_lock w with
      | (w', inl e) => (w', inl (Raised e))
      | (w', inr _) => (w', inr tt)
      end
  end.

(** ** More reading aids *)

(** An observing world that refuses to write some targets. *)
Definition guarded_os (refused : string -> bool) : OS := {|
  world := list call;
  click_echo line := emit (Echo line);
  paths_mkdirs dir := emit (Mkdirs dir);
  write_file target data :=
    if refused target then raise (OSError target)
    else emit (WriteFile target data);
  os_chmod target mode := emit (Chmod target mode)
|}.



(** The calls [install] makes for one entry when nothing raises. *)
Definition entry_calls (opened : string -> exn + ZipFile) (e : entry)
    : list call :=
  match opened (zip_name (project e) (job_id e)) with
  | inl _ => []
  | inr archive =>
      flat_map (fun member =>
                  if Py.endswith (filename member) "/" then []
                  else flat_map
                         (fun r => member_calls archive member (snd r (filename member)))
                         (matching (compile_installs (entry_install e)) (filename member)))
        archive
  end.

(** The line [download] writes for an entry found in the cache. *)
Definition present_line (e : entry) : string :=
  "* " ++ project e ++ ": " ++ Py.format_int (job_id e) ++ " => present".

(** Nine permission bits as ["rwxrwxrwx"], a clear bit as ["-"]. *)
Definition rwx (access : Z) : string :=
  let flag (bit : Z) (char : string) : string :=
    if Z.testbit access bit then char else "-" in
  flag 8 "r" ++ flag 7 "w" ++ flag 6 "x"
  ++ flag 5 "r" ++ flag 4 "w" ++ flag 3 "x"
  ++ flag 2 "r" ++ flag 1 "w" ++ flag 0 "x".

(** What [update] does for one entry: the id of its job, or the
    failure that ends the loop. *)
Definition resolve_entry (projects_get : string -> exn + gl_project)
    (e : entry) : failure + Z :=
  match projects_get (project e) with
  | inl err => inl (Raised err)
  | inr proj => get_ref_last_successful_job proj (ref e) (job e)
  end.

(** An entry with its [job_id] assigned. *)
Definition locked_entry (e : entry) (i : Z) : entry :=
  {| project := project e; ref := ref e; job := job e;
     job_id := i; entry_install := entry_install e |}.

(** The line [update] writes for an entry resolved to job [i]. *)
Definition update_line (e : entry) (i : Z) : string :=
  "* " ++ project e ++ ": " ++ ref e ++ " => " ++ Py.format_int i.

(** ** [configure] *)

(** [configure]: the configuration handed to [_config.save], from the
    arguments as click passes them. The option [--token-type] is a
    [click.Choice(['private', 'job'])] with default ['private']; a value
    outside the choice is rejected by click before the command runs
    ([None]). *)
Definition configure (url_argument : string) (token_type_option : option string)
    (token_argument : string) : option config :=
  let chosen := match token_type_option with
                | Some given => given
                | None => "private"
                end in
  if String.eqb chosen "private" || String.eqb chosen "job" then
    Some {| gitlab_url := url_argument; token_type := chosen;
            token := token_argument |}
  else None.

(** The last character of a string is the separator. *)
Fixpoint last_is_sep (s : string) : bool :=
  match s with
  | EmptyString => false
  | String c rest =>
      match rest with
      | EmptyString => Ascii.eqb c Py.sep
      | String _ _ => last_is_sep rest
      end
  end.

(** ** A sample lock file and archive *)

Module Sample.

Definition x_so : ZipInfo :=
  {| filename := "lib/x.so"; create_system := 3;
     external_attr := Z.shiftl (Py.oct "100644") 16;
     payload := [x7f; x45; x4c; x46] |}.

Definition lib_dir : ZipInfo :=
  {| filename := "lib/"; create_system := 3;
     external_attr := Z.shiftl (Py.oct "040755") 16; payload := [] |}.

Definition vendored : entry :=
  {| project := "42"; ref := "main"; job := "build"; job_id := 7;
     entry_install := [("lib/", "vendor")] |}.

(** The cache holds the archive of job 7 of project 42 and nothing
    else. *)
Definition opened (name : string) : exn + ZipFile :=
  if String.eqb name "42/7.zip" then inr [lib_dir; x_so] else inl (KeyError name).

(** A project whose ref ["main"] has two pipelines, the newer first. *)
Definition tools : gl_project :=
  {| path_with_namespace := "group/tools";
     pipelines ref :=
       if String.eqb ref "main" then
         [ {| success_jobs := [ {| gl_job_id := 31; gl_job_name := "test" |};
                                {| gl_job_id := 32; gl_job_name := "build" |} ] |};
           {| success_jobs := [ {| gl_job_id := 21; gl_job_name := "build" |} ] |} ]
       else [] |}.

(** The server knows project 42 only. *)
Definition projects_get (name : string) : exn + gl_project :=
  if String.eqb name "42" then inr tools
  else inl (ConnectionError "404 Project Not Found").

Definition private_config : config :=
  {| gitlab_url := "https://gitlab.example"; token_type := "private";
     token := "t0k3n" |}.

Definition job_config : config :=
  {| gitlab_url := "https://gitlab.example"; token_type := "job";
     token := "t0k3n" |}.

End Sample.

(** * Properties *)

(** ** Strings *)

Lemma startswith_iff (f s : string) :
  Py.startswith f s = true <-> exists rest, f = s ++ rest.
Proof.
  unfold Py.startswith. revert f.
  induction s as [|c s IH]; intros f.
  - split; [intros _; exists f; reflexivity | intros _; destruct f; reflexivity].
  - destruct f as [|c' f]; simpl.
    + split; [discriminate | intros [rest Hrest]; discriminate].
    + destruct (ascii_dec c c') as [->|Hne].
      * rewrite IH. split; intros [rest Hrest]; exists rest.
        -- rewrite Hrest. reflexivity.
        -- now inversion Hrest.
      * split; [discriminate|]. intros [rest Hrest].
        inversion Hrest. congruence.
Qed.

Lemma slice_from_app (s rest : string) :
  Py.slice_from (s ++ rest) (Py.len s) = rest.
Proof. induction s as [|c s IH]; simpl; [destruct rest; reflexivity | exact IH]. Qed.

Lemma endswith_sep_not_dot (source : string) :
  Py.endswith source "/" = true -> String.eqb source "." = false.
Proof.
  intros Hend. destruct (String.eqb_spec source ".") as [->|]; [|reflexivity].
  discriminate Hend.
Qed.

Lemma join_absolute (a b : string) :
  PosixPath.isabs b = true -> PosixPath.join a b = b.
Proof. unfold PosixPath.isabs, PosixPath.join. intros ->. reflexivity. Qed.

Lemma join_relative (a b : string) :
  PosixPath.isabs b = false -> a <> EmptyString -> Py.endswith a "/" = false ->
  PosixPath.join a b = a ++ "/" ++ b.
Proof.
  unfold PosixPath.isabs, PosixPath.join. intros -> Ha ->.
  destruct (String.eqb_spec a EmptyString); [contradiction | reflexivity].
Qed.

Lemma append_assoc (a b c : string) : (a ++ b) ++ c = a ++ b ++ c.
Proof.
  induction a as [|x a IH]; [reflexivity|].
  change (String x ((a ++ b) ++ c) = String x (a ++ b ++ c)). rewrite IH.
  reflexivity.
Qed.

(** ** The three kinds of rule *)

(** C4. A pattern ending in the separator compiles to the directory
    rule: its matcher is true exactly on the filenames that have the
    pattern as a prefix, and its translator joins the destination with
    the filename minus that prefix; ["bin/"] with destination ["out"]
    sends ["bin/tool"] to ["out/tool"]. *)
Theorem directory_rule (source destination : string) :
  Py.endswith source "/" = true ->
  let r := compile_rule source destination in
  (forall f, fst r f = true <-> exists rest, f = source ++ rest) /\
  (forall rest, snd r (source ++ rest) = PosixPath.join destination rest) /\
  (forall f, snd r f = PosixPath.join destination (Py.slice_from f (Py.len source))) /\
  snd (compile_rule "bin/" "out") "bin/tool" = "out/tool".
Proof.
  intros Hend r. subst r. unfold compile_rule.
  rewrite (endswith_sep_not_dot _ Hend), Hend. cbn [fst snd].
  repeat split.
  - apply startswith_iff.
  - apply startswith_iff.
  - intros rest. rewrite slice_from_app. reflexivity.
Qed.

Lemma directory_rule_witness :
  Py.endswith "lib/" "/" = true /\
  (fst (compile_rule "lib/" "vendor") "lib/x.so" = true <->
   exists rest, "lib/x.so" = "lib/" ++ rest) /\
  snd (compile_rule "lib/" "vendor") ("lib/" ++ "x.so") = PosixPath.join "vendor" "x.so".
Proof.
  split; [reflexivity|].
  pose proof (directory_rule "lib/" "vendor" eq_refl) as (Hm & Ht & _).
  split; [apply Hm | apply Ht].
Defined.

(** C5. The pattern ["."] compiles to the copy-all rule: its matcher is
    true for every filename and its translator joins the destination
    with the filename as it is. Spelled out on strings: a relative
    filename comes after the destination and one separator (none when
    the destination is empty or already ends in one); the filename is
    never shortened or rewritten. With destination ["out"], ["bin/tool"]
    goes to ["out/bin/tool"]. *)
Theorem copy_all_rule (destination : string) :
  let r := compile_rule "." destination in
  (forall f, fst r f = true) /\
  (forall f, snd r f = PosixPath.join destination f) /\
  (forall f,
     PosixPath.isabs f = false -> destination <> EmptyString ->
     Py.endswith destination "/" = false ->
     snd r f = destination ++ "/" ++ f) /\
  (forall f,
     PosixPath.isabs f = false ->
     destination = EmptyString \/ Py.endswith destination "/" = true ->
     snd r f = destination ++ f) /\
  (forall f, exists before, snd r f = before ++ f) /\
  fst (compile_rule "." "out") "bin/tool" = true /\
  snd (compile_rule "." "out") "bin/tool" = "out/bin/tool" /\
  snd (compile_rule "." "out/") "bin/tool" = "out/bin/tool" /\
  snd (compile_rule "." EmptyString) "bin/tool" = "bin/tool" /\
  snd (compile_rule "." "a/b") "README" = "a/b/README".
Proof.
  split; [intros f; reflexivity|]. split; [intros f; reflexivity|].
  split; [intros f Hrel Hne Hend; cbn; apply join_relative; assumption|].
  split.
  { intros f Hrel Hdest. cbn. unfold PosixPath.join, PosixPath.isabs in *.
    rewrite Hrel. destruct Hdest as [Hempty | Hslash]; [rewrite Hempty; reflexivity|]. rewrite Hslash.
    rewrite orb_true_r. reflexivity. }
  split.
  { intros f. cbn. unfold PosixPath.join.
    destruct (Py.startswith f "/"); [exists EmptyString; reflexivity|].
    destruct (String.eqb destination EmptyString || Py.endswith destination "/").
    - exists destination. reflexivity.
    - exists (destination ++ "/"). rewrite append_assoc. reflexivity. }
  repeat split; reflexivity.
Qed.

Lemma copy_all_rule_witness :
  PosixPath.isabs "lib/x.so" = false /\ "vendor" <> EmptyString /\
  Py.endswith "vendor" "/" = false /\
  snd (compile_rule "." "vendor") "lib/x.so" = "vendor/lib/x.so" /\
  Py.endswith "vendor/" "/" = true /\
  snd (compile_rule "." "vendor/") "lib/x.so" = "vendor/lib/x.so".
Proof.
  assert (Hne : "vendor" <> EmptyString) by discriminate.
  destruct (copy_all_rule "vendor") as (_ & _ & Hplain & _).
  destruct (copy_all_rule "vendor/") as (_ & _ & _ & Hslash & _).
  split; [reflexivity|]. split; [exact Hne|]. split; [reflexivity|].
  split; [exact (Hplain "lib/x.so" eq_refl Hne eq_refl)|].
  split; [reflexivity|].
  exact (Hslash "lib/x.so" eq_refl (or_intror eq_refl)).
Defined.

(** C6. A pattern that is neither ["."] nor ends in the separator
    compiles to the exact-file rule: its matcher is true only for the
    filename equal to the pattern and its translator always gives the
    destination; the empty pattern is of this kind and matches only the
    empty filename. *)
Theorem exact_file_rule (source destination : string) :
  source <> "." -> Py.endswith source "/" = false ->
  let r := compile_rule source destination in
  (forall f, fst r f = true <-> f = source) /\
  (forall f, snd r f = destination) /\
  (forall f, fst (compile_rule EmptyString destination) f = true <-> f = EmptyString) /\
  (forall f, snd (compile_rule EmptyString destination) f = destination).
Proof.
  intros Hdot Hend r. subst r. unfold compile_rule. rewrite Hend.
  destruct (String.eqb_spec source "."); [contradiction|]. cbn.
  repeat split; try (intros H0; apply String.eqb_eq; exact H0).
Qed.

Lemma exact_file_rule_witness :
  "README.md" <> "." /\ Py.endswith "README.md" "/" = false /\
  (fst (compile_rule "README.md" "doc/README") "README.md" = true <->
   "README.md" = "README.md") /\
  snd (compile_rule "README.md" "doc/README") "src/README.md" = "doc/README".
Proof.
  split; [discriminate|]. split; [reflexivity|].
  assert (Hne : "README.md" <> ".") by discriminate.
  pose proof (exact_file_rule "README.md" "doc/README" Hne eq_refl) as (Hm & Ht & _).
  split; [apply Hm | apply Ht].
Defined.

(** ** Filenames are not sanitised *)

(** C9, as stated, fails for the directory translator. The absolute
    filename ["/opt/tool"] is matched by the rule ["/opt/" -> "out"] and
    is sent to ["out/tool"]: what the join receives is the filename
    without the pattern's length, which is relative here, so the
    destination is kept and the file lands below it. *)
Lemma absolute_filename_directory_rule_counterexample :
  PosixPath.isabs "/opt/tool" = true /\
  Py.endswith "/opt/" "/" = true /\
  fst (compile_rule "/opt/" "out") "/opt/tool" = true /\
  snd (compile_rule "/opt/" "out") "/opt/tool" = "out/tool" /\
  snd (compile_rule "/opt/" "usr") "/opt/tool" = "usr/tool" /\
  PosixPath.is_under "out" (snd (compile_rule "/opt/" "out") "/opt/tool") = true /\
  ~ (forall source destination f,
       Py.endswith source "/" = true ->
       PosixPath.isabs f = true ->
       fst (compile_rule source destination) f = true ->
       (forall other, snd (compile_rule source other) f
                      = snd (compile_rule source destination) f) /\
       PosixPath.is_under destination (snd (compile_rule source destination) f) = false).
Proof.
  repeat (split; [reflexivity|]).
  intros Hall.
  destruct (Hall "/opt/" "out" "/opt/tool" eq_refl eq_refl eq_refl) as [Hsame _].
  specialize (Hsame "usr"). discriminate Hsame.
Qed.

(** C9, amended. The translators do not sanitise filenames. A filename
    with [".."] components can be sent outside the destination, by the
    copy-all rule and by the directory rule. For an absolute filename
    the copy-all translator returns the filename itself, the destination
    being dropped by the join; the directory translator drops the
    destination when what is left of the filename after the pattern's
    length is absolute, and then returns that remainder. A relative
    filename is appended to the destination unchanged. *)
Theorem translators_do_not_sanitise :
  (snd (compile_rule "." "out") "../../etc/passwd" = "out/../../etc/passwd" /\
   PosixPath.is_under "out" (snd (compile_rule "." "out") "../../etc/passwd") = false) /\
  (fst (compile_rule "lib/" "vendor") "lib/../../x.so" = true /\
   snd (compile_rule "lib/" "vendor") "lib/../../x.so" = "vendor/../../x.so" /\
   PosixPath.is_under "vendor" (snd (compile_rule "lib/" "vendor") "lib/../../x.so") = false) /\
  (forall destination f,
     PosixPath.isabs f = true ->
     snd (compile_rule "." destination) f = f) /\
  (forall source destination f,
     Py.endswith source "/" = true ->
     PosixPath.isabs (Py.slice_from f (Py.len source)) = true ->
     snd (compile_rule source destination) f = Py.slice_from f (Py.len source)) /\
  (snd (compile_rule "." "out") "/etc/passwd" = "/etc/passwd" /\
   PosixPath.is_under "out" (snd (compile_rule "." "out") "/etc/passwd") = false) /\
  (fst (compile_rule "lib/" "vendor") "lib//etc/passwd" = true /\
   snd (compile_rule "lib/" "vendor") "lib//etc/passwd" = "/etc/passwd" /\
   PosixPath.is_under "vendor" (snd (compile_rule "lib/" "vendor") "lib//etc/passwd") = false) /\
  (forall destination f,
     PosixPath.isabs f = false -> destination <> EmptyString ->
     Py.endswith destination "/" = false ->
     snd (compile_rule "." destination) f = destination ++ "/" ++ f).
Proof.
  split; [split; reflexivity|].
  split; [repeat split; reflexivity|].
  split.
  { intros destination f Habs. cbn. apply join_absolute, Habs. }
  split.
  { intros source destination f Hend Habs. unfold compile_rule.
    rewrite (endswith_sep_not_dot _ Hend), Hend. cbn [snd].
    apply join_absolute, Habs. }
  split; [split; reflexivity|].
  split; [repeat split; reflexivity|].
  intros destination f Hrel Hne Hend. cbn. apply join_relative; assumption.
Qed.

Lemma translators_do_not_sanitise_witness :
  PosixPath.isabs "/etc/cron.d/job" = true /\
  snd (compile_rule "." "out") "/etc/cron.d/job" = "/etc/cron.d/job" /\
  Py.endswith "pkg/" "/" = true /\
  PosixPath.isabs (Py.slice_from "pkg//tmp/x" (Py.len "pkg/")) = true /\
  snd (compile_rule "pkg/" "out") "pkg//tmp/x" = "/tmp/x" /\
  PosixPath.isabs "a/../../b" = false /\ "out" <> EmptyString /\
  Py.endswith "out" "/" = false /\
  snd (compile_rule "." "out") "a/../../b" = "out/a/../../b".
Proof.
  destruct translators_do_not_sanitise as (_ & _ & Habs & Hdir & _ & _ & Hrel).
  assert (Hne : "out" <> EmptyString) by discriminate.
  split; [reflexivity|].
  split; [exact (Habs "out" "/etc/cron.d/job" eq_refl)|].
  split; [reflexivity|]. split; [reflexivity|].
  split; [exact (Hdir "pkg/" "out" "pkg//tmp/x" eq_refl eq_refl)|].
  split; [reflexivity|]. split; [exact Hne|]. split; [reflexivity|].
  exact (Hrel "out" "a/../../b" eq_refl Hne eq_refl).
Defined.


(** ** Loops *)

Section Loops.

Context {W A : Type}.

Lemma for_each_app (l1 l2 : list A) (body : A -> io W unit) (w : W) :
  for_each (l1 ++ l2)%list body w
  = (for_each l1 body ;; for_each l2 body)%io w.
Proof.
  revert w. induction l1 as [|x l1 IH]; intros w; cbn.
  - reflexivity.
  - unfold bind in *. destruct (body x w) as [w' [e|[]]]; [reflexivity|].
    apply IH.
Qed.

Lemma for_each_skip (l : list A) (body : A -> io W unit) :
  (forall x w, List.In x l -> body x w = (w, inr tt)) ->
  forall w, for_each l body w = (w, inr tt).
Proof.
  induction l as [|x l IH]; intros Hskip w; cbn; [reflexivity|].
  unfold bind. rewrite Hskip by (left; reflexivity).
  apply IH. intros y w' Hy. apply Hskip. right; exact Hy.
Qed.

Lemma for_each_guard (l : list A) (p : A -> bool) (body : A -> io W unit) (w : W) :
  for_each l (fun x => if p x then body x else ret tt) w
  = for_each (List.filter p l) body w.
Proof.
  revert w. induction l as [|x l IH]; intros w; cbn; [reflexivity|].
  destruct (p x); cbn.
  - unfold bind. destruct (body x w) as [w' [e|[]]]; [reflexivity | apply IH].
  - apply IH.
Qed.

Lemma for_each_ext (l : list A) (f g : A -> io W unit) :
  (forall x w, f x w = g x w) -> forall w, for_each l f w = for_each l g w.
Proof.
  intros Hfg. induction l as [|x l IH]; intros w; cbn; [reflexivity|].
  unfold bind. rewrite Hfg. destruct (g x w) as [w' [e|[]]]; [reflexivity | apply IH].
Qed.

End Loops.

Lemma trace_for_each {A : Type} (l : list A) (body : A -> io (list call) unit)
    (calls : A -> list call) :
  (forall x t, body x t = ((t ++ calls x)%list, inr tt)) ->
  forall t, for_each l body t = ((t ++ flat_map calls l)%list, inr tt).
Proof.
  intros Hbody. induction l as [|x l IH]; intros t; cbn.
  - rewrite app_nil_r. reflexivity.
  - unfold bind. rewrite Hbody, IH, <- app_assoc. reflexivity.
Qed.

(** ** [install_member] in the two worlds *)

Lemma member_access_unix (member : ZipInfo) :
  create_system member = 3 ->
  fst (member_access member)
  = Some (Z.land (Z.shiftr (external_attr member) 16) S_IRWXUGO).
Proof. unfold member_access. intros ->. reflexivity. Qed.

Lemma member_access_other (member : ZipInfo) :
  create_system member <> 3 -> member_access member = (None, EmptyString).
Proof.
  unfold member_access. intros Hne.
  destruct (Z.eqb_spec (create_system member) 3); [contradiction | reflexivity].
Qed.

Lemma trace_install_member (archive : ZipFile) (member : ZipInfo)
    (target : string) (t : list call) :
  install_member (os:=trace_os) archive member target t
  = ((t ++ member_calls archive member target)%list, inr tt).
Proof.
  unfold install_member, member_calls.
  destruct (member_access member) as [access filemode_str]. cbn [fst snd].
  cbn. unfold bind, emit, ret.
  destruct (Py.contains Py.sep target), access; cbn;
    repeat rewrite <- app_assoc; reflexivity.
Qed.

Lemma mem_install_member (default_mode : Z) (archive : ZipFile)
    (member : ZipInfo) (target : string) (fs : gmap string file) :
  install_member (os:=mem_os default_mode) archive member target fs
  = (<[target := {| data := payload member;
                    mode := match fst (member_access member) with
                            | Some a => a
                            | None => match fs !! target with
                                      | Some f => mode f
                                      | None => default_mode
                                      end
                            end |}]> fs, inr tt).
Proof.
  unfold install_member.
  destruct (member_access member) as [access filemode_str]. cbn [fst snd].
  cbn. unfold bind, ret, mem_write, mem_chmod, archive_open.
  destruct (Py.contains Py.sep target), access; cbn;
    rewrite ?lookup_insert_eq, ?insert_insert_eq; reflexivity.
Qed.

Lemma writes_app (t1 t2 : list call) :
  writes (t1 ++ t2)%list = (writes t1 ++ writes t2)%list.
Proof. apply flat_map_app. Qed.

Lemma chmods_app (t1 t2 : list call) :
  chmods (t1 ++ t2)%list = (chmods t1 ++ chmods t2)%list.
Proof. apply flat_map_app. Qed.

Lemma writes_member_calls (archive : ZipFile) (member : ZipInfo) (target : string) :
  writes (member_calls archive member target) = [(target, payload member)].
Proof.
  unfold member_calls.
  destruct (Py.contains Py.sep target), (fst (member_access member)); reflexivity.
Qed.

Lemma writes_flat_member_calls {R : Type} (archive : ZipFile) (member : ZipInfo)
    (target : R -> string) (rs : list R) :
  writes (flat_map (fun r => member_calls archive member (target r)) rs)
  = map (fun r => (target r, payload member)) rs.
Proof.
  induction rs as [|r rs IH]; [reflexivity|].
  change (writes (member_calls archive member (target r)
                  ++ flat_map (fun r => member_calls archive member (target r)) rs)%list
          = (target r, payload member) :: map (fun r => (target r, payload member)) rs).
  rewrite writes_app, writes_member_calls, IH. reflexivity.
Qed.

Lemma chmods_member_calls (archive : ZipFile) (member : ZipInfo) (target : string) :
  chmods (member_calls archive member target)
  = match fst (member_access member) with
    | Some a => [(target, a)]
    | None => []
    end.
Proof.
  unfold member_calls.
  destruct (Py.contains Py.sep target), (fst (member_access member)); reflexivity.
Qed.

Lemma install_rules_matching `{OS} (installs : list rule) (archive : ZipFile)
    (member : ZipInfo) (w : world) :
  install_rules installs archive member w
  = for_each (matching installs (filename member))
      (fun r => install_member archive member (snd r (filename member))) w.
Proof.
  unfold install_rules, matching.
  rewrite <- (for_each_guard installs (fun r => fst r (filename member))).
  revert w. induction installs as [|[match_ translate] installs IH]; intros w; cbn.
  - reflexivity.
  - unfold bind. destruct (match_ (filename member)).
    + destruct (install_member archive member _ w) as [w' [e|[]]];
        [reflexivity | apply IH].
    + apply IH.
Qed.

Lemma compile_installs_map (items : list (string * string)) :
  compile_installs items
  = map (fun item => compile_rule (fst item) (snd item)) items.
Proof.
  induction items as [|[source destination] items IH]; cbn; [|rewrite IH]; reflexivity.
Qed.

Lemma trace_install_one (installs : list rule) (archive : ZipFile)
    (member : ZipInfo) (t : list call) :
  install_one (os:=trace_os) installs archive member t
  = ((t ++ if Py.endswith (filename member) "/" then []
           else flat_map (fun r => member_calls archive member (snd r (filename member)))
                  (matching installs (filename member)))%list,
     inr tt).
Proof.
  unfold install_one. destruct (Py.endswith (filename member) "/").
  - cbn. rewrite app_nil_r. reflexivity.
  - rewrite install_rules_matching.
    exact (trace_for_each (matching installs (filename member))
             (fun r => install_member (os:=trace_os) archive member
                         (snd r (filename member)))
             (fun r => member_calls archive member (snd r (filename member)))
             (fun r t' => trace_install_member archive member _ t') t).
Qed.

(** The whole pass over an archive, as calls: members in archive order,
    directory entries left out, and for each member its matching rules
    in rule order. *)
Lemma trace_install_archive (installs : list rule) (archive : ZipFile)
    (t : list call) :
  install_archive (os:=trace_os) installs archive t
  = ((t ++ flat_map (fun member =>
              if Py.endswith (filename member) "/" then []
              else flat_map (fun r => member_calls archive member (snd r (filename member)))
                     (matching installs (filename member)))
            archive)%list,
     inr tt).
Proof.
  exact (trace_for_each archive (install_one (os:=trace_os) installs archive) _
           (fun member t' => trace_install_one installs archive member t') t).
Qed.

(** The pass over an archive, member by member, on any operating
    system. *)
Lemma install_archive_members `{OS} (installs : list rule) (archive : ZipFile)
    (w : world) :
  install_archive installs archive w
  = for_each archive
      (fun member =>
         if Py.endswith (filename member) "/" then ret tt
         else for_each (matching installs (filename member))
                (fun r => install_member archive member (snd r (filename member))))
      w.
Proof.
  unfold install_archive. apply for_each_ext. intros member w'.
  unfold install_one. destruct (Py.endswith (filename member) "/");
    [reflexivity | apply install_rules_matching].
Qed.

Lemma writes_of_pass (installs : list rule) (whole members : ZipFile) :
  writes (flat_map (fun member =>
                      if Py.endswith (filename member) "/" then []
                      else flat_map
                             (fun r => member_calls whole member (snd r (filename member)))
                             (matching installs (filename member)))
            members)
  = flat_map (fun member =>
                if Py.endswith (filename member) "/" then []
                else map (fun r => (snd r (filename member), payload member))
                       (matching installs (filename member)))
      members.
Proof.
  induction members as [|member members IH]; [reflexivity|].
  cbn [flat_map]. rewrite writes_app, IH. f_equal.
  destruct (Py.endswith (filename member) "/"); [reflexivity|].
  apply writes_flat_member_calls.
Qed.

(** One turn of the loop of [install] over the lock file, as calls. *)
Lemma install_cons (opened : string -> exn + ZipFile) (e : entry)
    (rest : list entry) (t : list call) :
  install (os:=trace_os) (e :: rest) opened t
  = match entry_install e with
    | [] => (t, inl (UnboundLocalError "source"))
    | _ :: _ =>
        match opened (zip_name (project e) (job_id e)) with
        | inl err => (t, inl err)
        | inr _ =>
            install (os:=trace_os) rest opened (t ++ entry_calls opened e)%list
        end
    end.
Proof.
  unfold install at 1. cbn [for_each]. unfold bind, entry_calls.
  destruct (entry_install e) as [|item items]; [reflexivity|].
  destruct (opened (zip_name (project e) (job_id e))) as [err|archive];
    [reflexivity|].
  rewrite trace_install_archive. reflexivity.
Qed.

(** ** The archive installer *)

(** C1. For a member that is not a directory entry, every rule is
    tried in the order of [installs] (which is the order of the
    mapping's items), and the member is installed once for each rule
    that matches, at that rule's translation, in rule order; a match
    does not end the loop. Stated for any operating system as an
    equation of commands, and on the observed calls. The pass over the
    archive does this for every member in archive order, and [install]
    runs that pass, with the rules compiled from the entry's mapping,
    on the archive cached for the entry. *)
Theorem install_once_per_matching_rule (installs : list rule)
    (archive : ZipFile) (member : ZipInfo) :
  Py.endswith (filename member) "/" = false ->
  (forall (os : OS) (w : world),
     install_one installs archive member w
     = for_each (matching installs (filename member))
         (fun r => install_member archive member (snd r (filename member))) w) /\
  (forall t : list call,
     exec (install_one (os:=trace_os) installs archive member) t
     = (t ++ flat_map (fun r => member_calls archive member (snd r (filename member)))
               (matching installs (filename member)))%list) /\
  (forall t : list call,
     writes (exec (install_one (os:=trace_os) installs archive member) t)
     = (writes t ++ map (fun r => (snd r (filename member), payload member))
                      (matching installs (filename member)))%list) /\
  (forall items : list (string * string),
     compile_installs items
     = map (fun item => compile_rule (fst item) (snd item)) items) /\
  (forall (os : OS) (w : world),
     install_archive installs archive w
     = for_each archive
         (fun m =>
            if Py.endswith (filename m) "/" then ret tt
            else for_each (matching installs (filename m))
                   (fun r => install_member archive m (snd r (filename m))))
         w) /\
  (forall t : list call,
     install_archive (os:=trace_os) installs archive t
     = ((t ++ flat_map (fun m =>
                 if Py.endswith (filename m) "/" then []
                 else flat_map (fun r => member_calls archive m (snd r (filename m)))
                        (matching installs (filename m)))
               archive)%list,
        inr tt)) /\
  (forall t : list call,
     writes (exec (install_archive (os:=trace_os) installs archive) t)
     = (writes t
        ++ flat_map (fun m =>
             if Py.endswith (filename m) "/" then []
             else map (fun r => (snd r (filename m), payload m))
                    (matching installs (filename m)))
           archive)%list) /\
  (forall (before after : list ZipInfo) (t : list call),
     archive = (before ++ member :: after)%list ->
     exec (install_archive (os:=trace_os) installs archive) t
     = (exec (for_each before (install_one (os:=trace_os) installs archive)) t
        ++ flat_map (fun r => member_calls archive member (snd r (filename member)))
             (matching installs (filename member))
        ++ flat_map (fun m =>
             if Py.endswith (filename m) "/" then []
             else flat_map (fun r => member_calls archive m (snd r (filename m)))
                    (matching installs (filename m)))
           after)%list) /\
  (forall (e : entry) (opened : string -> exn + ZipFile) (t : list call),
     entry_install e <> [] ->
     opened (zip_name (project e) (job_id e)) = inr archive ->
     install (os:=trace_os) [e] opened t
     = ((t ++ flat_map (fun m =>
                 if Py.endswith (filename m) "/" then []
                 else flat_map (fun r => member_calls archive m (snd r (filename m)))
                        (matching (compile_installs (entry_install e)) (filename m)))
               archive)%list,
        inr tt)).
Proof.
  intros Hfile.
  assert (Hcmd : forall (os : OS) (w : world),
             install_one installs archive member w
             = for_each (matching installs (filename member))
                 (fun r => install_member archive member (snd r (filename member))) w).
  { intros os w. unfold install_one. rewrite Hfile. apply install_rules_matching. }
  assert (Htrace : forall t : list call,
             exec (install_one (os:=trace_os) installs archive member) t
             = (t ++ flat_map (fun r => member_calls archive member (snd r (filename member)))
                       (matching installs (filename member)))%list).
  { intros t. unfold exec. rewrite trace_install_one, Hfile. reflexivity. }
  split; [exact Hcmd|]. split; [exact Htrace|]. split.
  { intros t. rewrite Htrace, writes_app, writes_flat_member_calls. reflexivity. }
  split; [apply compile_installs_map|].
  split; [intros os w; apply install_archive_members|].
  split; [intros t; apply trace_install_archive|].
  split.
  { intros t. unfold exec. rewrite trace_install_archive. cbn [fst].
    rewrite writes_app, writes_of_pass. reflexivity. }
  split.
  { intros before after t Harchive.
    pose (calls := fun m : ZipInfo =>
            if Py.endswith (filename m) "/" then []
            else flat_map (fun r => member_calls archive m (snd r (filename m)))
                   (matching installs (filename m))).
    assert (Hpass : exec (install_archive (os:=trace_os) installs archive) t
                    = (t ++ flat_map calls archive)%list)
      by (unfold exec; rewrite trace_install_archive; reflexivity).
    assert (Hbefore : exec (for_each before
                              (install_one (os:=trace_os) installs archive)) t
                      = (t ++ flat_map calls before)%list)
      by exact (f_equal fst
                  (trace_for_each before _ calls
                     (fun m t' => trace_install_one installs archive m t') t)).
    assert (Hmember : calls member
                      = flat_map (fun r => member_calls archive member
                                             (snd r (filename member)))
                          (matching installs (filename member)))
      by (unfold calls; rewrite Hfile; reflexivity).
    assert (Hsplit : flat_map calls archive
                     = (flat_map calls before ++ calls member
                        ++ flat_map calls after)%list)
      by (rewrite Harchive, flat_map_app; reflexivity).
    rewrite Hpass, Hbefore, Hsplit, Hmember, <- app_assoc. reflexivity. }
  intros e opened t Hitems Hopened. rewrite install_cons.
  destruct (entry_install e) as [|item items] eqn:Hmapping; [contradiction|].
  rewrite Hopened. unfold entry_calls. rewrite Hopened, Hmapping. reflexivity.
Qed.

Lemma install_once_per_matching_rule_witness :
  let member := {| filename := "bin/tool"; create_system := 0;
                   external_attr := 0; payload := [x2a] |} in
  let items := [("bin/", "out"); ("doc/", "doc"); (".", "all"); ("bin/tool", "t")] in
  let installs := compile_installs items in
  let e := {| project := "42"; ref := "main"; job := "build"; job_id := 7;
              entry_install := items |} in
  let opened (name : string) : exn + ZipFile := inr [member] in
  Py.endswith (filename member) "/" = false /\
  writes (exec (install_one (os:=trace_os) installs [member] member) [])
  = [("out/tool", [x2a]); ("all/bin/tool", [x2a]); ("t", [x2a])] /\
  [member] = ([] ++ member :: [])%list /\
  entry_install e <> [] /\
  opened (zip_name (project e) (job_id e)) = inr [member] /\
  writes (exec (install (os:=trace_os) [e] opened) [])
  = [("out/tool", [x2a]); ("all/bin/tool", [x2a]); ("t", [x2a])].
Proof.
  intros member items installs e opened.
  assert (Hitems : entry_install e <> []) by discriminate.
  destruct (install_once_per_matching_rule installs [member] member eq_refl)
    as (_ & _ & Hwrites & _ & _ & _ & _ & Hsplit & Hinstall).
  split; [reflexivity|]. split; [rewrite Hwrites; reflexivity|].
  split; [reflexivity|]. split; [exact Hitems|]. split; [reflexivity|].
  pose proof (Hsplit [] [] [] eq_refl) as _.
  unfold exec. rewrite (Hinstall e opened [] Hitems eq_refl). reflexivity.
Defined.

(** C7. A member whose filename ends in the separator is skipped: for
    any rules and any operating system its turn of the loop leaves the
    world as it was and raises nothing, no call is made for it, and the
    pass over the archive is the pass over the archive without it. *)
Theorem directory_entries_are_skipped (installs : list rule)
    (archive : ZipFile) (member : ZipInfo) :
  Py.endswith (filename member) "/" = true ->
  (forall (os : OS) (w : world),
     install_one installs archive member w = (w, inr tt)) /\
  (forall t : list call,
     exec (install_one (os:=trace_os) installs archive member) t = t) /\
  (forall (os : OS) (before after : list ZipInfo) (w : world),
     for_each (before ++ member :: after)%list (install_one installs archive) w
     = for_each (before ++ after)%list (install_one installs archive) w).
Proof.
  intros Hdir.
  assert (Hskip : forall (os : OS) (w : world),
             install_one installs archive member w = (w, inr tt)).
  { intros os w. unfold install_one. rewrite Hdir. reflexivity. }
  split; [exact Hskip|]. split.
  - intros t. unfold exec. rewrite (Hskip trace_os). reflexivity.
  - intros os before after w. rewrite !for_each_app. unfold bind.
    destruct (for_each before (install_one installs archive) w) as [w' [e|[]]];
      [reflexivity|].
    cbn. unfold bind. rewrite Hskip. reflexivity.
Qed.

Lemma directory_entries_are_skipped_witness :
  let member := {| filename := "bin/"; create_system := 3;
                   external_attr := Z.shiftl (Py.oct "40755") 16; payload := [] |} in
  let installs := compile_installs [("bin/", "out"); (".", "all"); ("bin/", "x")] in
  Py.endswith (filename member) "/" = true /\
  fst (nth 0 installs (compile_rule EmptyString EmptyString)) (filename member) = true /\
  exec (install_one (os:=trace_os) installs [member] member) [] = [].
Proof.
  intros member installs. split; [reflexivity|]. split; [reflexivity|].
  destruct (directory_entries_are_skipped installs [member] member eq_refl)
    as (_ & Htrace & _).
  apply Htrace.
Defined.

(** C8. A member that is not a directory entry and that no rule
    matches is skipped without an error: for any operating system its
    turn of the loop returns normally and leaves the world as it was,
    and no call is made for it. *)
Theorem unmatched_member_is_skipped (installs : list rule)
    (archive : ZipFile) (member : ZipInfo) :
  Py.endswith (filename member) "/" = false ->
  (forall r, List.In r installs -> fst r (filename member) = false) ->
  (forall (os : OS) (w : world),
     install_one installs archive member w = (w, inr tt)) /\
  (forall t : list call,
     exec (install_one (os:=trace_os) installs archive member) t = t) /\
  (forall (default_mode : Z) (fs : gmap string file),
     exec (install_one (os:=mem_os default_mode) installs archive member) fs = fs).
Proof.
  intros Hfile Hnone.
  assert (Hskip : forall (os : OS) (w : world),
             install_one installs archive member w = (w, inr tt)).
  { intros os w. unfold install_one, install_rules. rewrite Hfile.
    apply for_each_skip. intros [match_ translate] w' Hin.
    specialize (Hnone _ Hin). cbn in Hnone. rewrite Hnone. reflexivity. }
  split; [exact Hskip|]. split.
  - intros t. unfold exec. rewrite (Hskip trace_os). reflexivity.
  - intros default_mode fs. unfold exec.
    rewrite (Hskip (mem_os default_mode)). reflexivity.
Qed.

Lemma unmatched_member_is_skipped_witness :
  let member := {| filename := "share/man/art.1"; create_system := 3;
                   external_attr := Z.shiftl (Py.oct "100644") 16; payload := [x2e] |} in
  let installs := compile_installs [("bin/", "out"); ("art.1", "man/art.1")] in
  Py.endswith (filename member) "/" = false /\
  (forall r, List.In r installs -> fst r (filename member) = false) /\
  install_one (os:=trace_os) installs [member] member [] = ([], inr tt).
Proof.
  intros member installs.
  assert (Hnone : forall r, List.In r installs -> fst r (filename member) = false).
  { intros r [<-|[<-|[]]]; reflexivity. }
  split; [reflexivity|]. split; [exact Hnone|].
  destruct (unmatched_member_is_skipped installs [member] member eq_refl Hnone)
    as (Hskip & _).
  apply (Hskip trace_os).
Defined.

(** ** Permission bits *)

Lemma access_testbit (attr i : Z) :
  0 <= i ->
  Z.testbit (Z.land (Z.shiftr attr 16) S_IRWXUGO) i
  = Z.testbit attr (i + 16) && (i <? 9).
Proof.
  intros Hi. rewrite Z.land_spec, Z.shiftr_spec by exact Hi.
  change S_IRWXUGO with (Z.ones 9).
  rewrite Z.testbit_ones_nonneg by lia. reflexivity.
Qed.

Lemma access_range (attr : Z) :
  0 <= Z.land (Z.shiftr attr 16) S_IRWXUGO <= Py.oct "777".
Proof.
  change S_IRWXUGO with (Z.ones 9). rewrite Z.land_ones by lia.
  change (Py.oct "777") with (2 ^ 9 - 1).
  pose proof (Z.mod_pos_bound (Z.shiftr attr 16) (2 ^ 9) eq_refl). lia.
Qed.

Lemma access_drops_special_bits (attr : Z) :
  Z.land (Z.land (Z.shiftr attr 16) S_IRWXUGO)
    (Z.lor Stat.S_ISUID (Z.lor Stat.S_ISGID (Z.lor Stat.S_ISVTX (Py.oct "170000"))))
  = 0.
Proof.
  change (Z.lor Stat.S_ISUID _) with (Z.shiftl 127 9).
  apply Z.bits_inj'. intros n Hn.
  rewrite Z.land_spec, access_testbit, Z.bits_0 by exact Hn.
  destruct (Z.ltb_spec n 9) as [Hlt|Hge].
  - rewrite Z.shiftl_spec_low by exact Hlt. apply andb_false_r.
  - rewrite andb_false_r. reflexivity.
Qed.

(** C2. For a member created on Unix, the mode given to the
    permission-set step is the upper 16 bits of the external attributes
    masked with 0o777: bit [i] of it is bit [i + 16] of the attributes
    for [i < 9] and clear above, so the setuid, setgid, sticky and
    file-type bits are gone; the step comes after the write, and in the
    file store the file at the target then has exactly that mode. Mode
    0100755 gives 0755, whatever the special bits and the lower 16
    bits of the attributes. For a member not created on Unix there is
    no permission-set step. *)
Theorem unix_permission_bits (archive : ZipFile) (member : ZipInfo)
    (target : string) :
  let filemode := Z.shiftr (external_attr member) 16 in
  let access := Z.land filemode S_IRWXUGO in
  let line mode_str :=
    "* install: " ++ filename member ++ " => " ++ target ++ mode_str in
  let mkdirs_calls :=
    if Py.contains Py.sep target then [Mkdirs (PosixPath.dirname target)] else [] in
  let filemode_str :=
    "   " ++ Stat.filemode (Z.lor (Stat.S_IFMT filemode) access) in
  (create_system member = 3 ->
     fst (member_access member) = Some access /\
     (forall i, 0 <= i ->
        Z.testbit access i = Z.testbit (external_attr member) (i + 16) && (i <? 9)) /\
     0 <= access <= Py.oct "777" /\
     Z.land access
       (Z.lor Stat.S_ISUID (Z.lor Stat.S_ISGID (Z.lor Stat.S_ISVTX (Py.oct "170000"))))
     = 0 /\
     (forall (os : OS) (w : world),
        install_member archive member target w
        = (click_echo (line filemode_str) ;;
           (if Py.contains Py.sep target
            then paths_mkdirs (PosixPath.dirname target) else ret tt) ;;
           write_file target (payload member) ;;
           os_chmod target access)%io w) /\
     (forall t : list call,
        exec (install_member (os:=trace_os) archive member target) t
        = (t ++ [Echo (line filemode_str)]
             ++ mkdirs_calls
             ++ [WriteFile target (payload member); Chmod target access])%list) /\
     (forall (default_mode : Z) (fs : gmap string file),
        (exec (install_member (os:=mem_os default_mode) archive member target) fs
           : gmap string file) !! target
        = Some {| data := payload member; mode := access |})) /\
  (create_system member <> 3 ->
     fst (member_access member) = None /\
     (forall (os : OS) (w : world),
        install_member archive member target w
        = (click_echo (line EmptyString) ;;
           (if Py.contains Py.sep target
            then paths_mkdirs (PosixPath.dirname target) else ret tt) ;;
           write_file target (payload member) ;;
           ret tt)%io w) /\
     (forall t : list call,
        exec (install_member (os:=trace_os) archive member target) t
        = (t ++ [Echo (line EmptyString)] ++ mkdirs_calls
             ++ [WriteFile target (payload member)])%list) /\
     (forall t : list call,
        chmods (exec (install_member (os:=trace_os) archive member target) t)
        = chmods t) /\
     (forall (default_mode : Z) (fs : gmap string file),
        (exec (install_member (os:=mem_os default_mode) archive member target) fs
           : gmap string file) !! target
        = Some {| data := payload member;
                  mode := match fs !! target with
                          | Some f => mode f
                          | None => default_mode
                          end |})) /\
  (forall (name : string) (content : list byte) (special low : Z),
     0 <= special < 8 -> 0 <= low < 2 ^ 16 ->
     fst (member_access
            {| filename := name; create_system := 3;
               external_attr :=
                 Z.lor (Z.shiftl (Z.lor (Py.oct "100755") (Z.shiftl special 9)) 16) low;
               payload := content |})
     = Some (Py.oct "755")).
Proof.
  intros filemode access line mkdirs_calls filemode_str. split; [|split].
  - intros Hunix.
    assert (Hacc : member_access member = (Some access, filemode_str)).
    { unfold member_access. rewrite Hunix. reflexivity. }
    split; [rewrite Hacc; reflexivity|].
    split; [intros i Hi; apply access_testbit, Hi|].
    split; [apply access_range|].
    split; [apply access_drops_special_bits|].
    split; [intros os w; unfold install_member; rewrite Hacc; reflexivity|].
    split.
    + intros t. unfold exec. rewrite trace_install_member.
      unfold member_calls. rewrite Hacc. reflexivity.
    + intros default_mode fs. unfold exec. rewrite mem_install_member.
      cbn [fst]. rewrite Hacc. cbn [fst]. apply lookup_insert_eq.
  - intros Hother. pose proof (member_access_other member Hother) as Hacc.
    split; [rewrite Hacc; reflexivity|].
    split; [intros os w; unfold install_member; rewrite Hacc; reflexivity|].
    split.
    + intros t. unfold exec. rewrite trace_install_member.
      unfold member_calls. rewrite Hacc. reflexivity.
    + split.
      * intros t. unfold exec. rewrite trace_install_member. cbn [fst].
        rewrite chmods_app, chmods_member_calls, Hacc. apply app_nil_r.
      * intros default_mode fs. unfold exec. rewrite mem_install_member.
        cbn [fst]. rewrite Hacc. cbn [fst]. apply lookup_insert_eq.
  - intros name content special low Hspecial Hlow.
    unfold member_access. cbn [create_system external_attr fst].
    change (3 =? 3) with true. cbn [fst]. f_equal.
    apply Z.bits_inj'. intros n Hn.
    rewrite access_testbit by exact Hn.
    rewrite Z.lor_spec, Z.shiftl_spec by lia.
    replace (n + 16 - 16) with n by lia.
    rewrite Z.lor_spec.
    assert (Hlowbit : Z.testbit low (n + 16) = false).
    { destruct (Z.eq_dec low 0) as [->|Hnz]; [apply Z.bits_0|].
      apply Z.bits_above_log2; [lia|].
      apply Z.log2_lt_pow2; [lia|].
      apply Z.lt_le_trans with (2 ^ 16); [lia|].
      apply Z.pow_le_mono_r; lia. }
    rewrite Hlowbit, orb_false_r.
    destruct (Z.ltb_spec n 9) as [Hlt|Hge].
    + rewrite Z.shiftl_spec_low by exact Hlt.
      rewrite orb_false_r, andb_true_r.
      change (Py.oct "100755") with (Z.lor (Py.oct "755") (Z.shiftl 1 15)).
      rewrite Z.lor_spec, Z.shiftl_spec_low by lia. apply orb_false_r.
    + rewrite andb_false_r. symmetry.
      change (Py.oct "755") with 493.
      apply Z.bits_above_log2; [lia|]. change (Z.log2 493) with 8. lia.
Qed.

Lemma unix_permission_bits_witness :
  let unix_member := {| filename := "bin/tool"; create_system := 3;
                        external_attr := Z.shiftl (Py.oct "104755") 16;
                        payload := [x7f] |} in
  let dos_member := {| filename := "bin/tool"; create_system := 0;
                       external_attr := 32; payload := [x7f] |} in
  create_system unix_member = 3 /\
  fst (member_access unix_member) = Some (Py.oct "755") /\
  chmods (exec (install_member (os:=trace_os) [unix_member] unix_member "out/tool") [])
  = [("out/tool", Py.oct "755")] /\
  create_system dos_member <> 3 /\
  chmods (exec (install_member (os:=trace_os) [dos_member] dos_member "out/tool") [])
  = [] /\
  0 <= 7 < 8 /\ 0 <= 65535 < 2 ^ 16 /\
  fst (member_access
         {| filename := "x"; create_system := 3;
            external_attr :=
              Z.lor (Z.shiftl (Z.lor (Py.oct "100755") (Z.shiftl 7 9)) 16) 65535;
            payload := [] |})
  = Some (Py.oct "755").
Proof.
  intros unix_member dos_member.
  assert (Hdos : create_system dos_member <> 3) by discriminate.
  assert (H7 : 0 <= 7 < 8) by lia.
  assert (Hlow : 0 <= 65535 < 2 ^ 16) by lia.
  destruct (unix_permission_bits [unix_member] unix_member "out/tool")
    as (Hunix & _ & Hmode).
  destruct (Hunix eq_refl) as (Hacc & _ & _ & _ & _ & Htrace & _).
  destruct (unix_permission_bits [dos_member] dos_member "out/tool")
    as (_ & Hother & _).
  destruct (Hother Hdos) as (_ & _ & _ & Hnone & _).
  split; [reflexivity|]. split; [exact Hacc|].
  split; [rewrite Htrace; reflexivity|].
  split; [exact Hdos|]. split; [apply Hnone|].
  split; [exact H7|]. split; [exact Hlow|].
  exact (Hmode "x" [] 7 65535 H7 Hlow).
Defined.

(** C10. A member created on Unix whose masked permission bits are all
    zero still gets the permission-set step, with mode 0: the step is
    left out only for [access = None], that is for a member not created
    on Unix. In the file store the file at the target ends with mode 0. *)
Theorem zero_mode_is_still_applied (archive : ZipFile) (member : ZipInfo)
    (target : string) :
  create_system member = 3 ->
  Z.land (Z.shiftr (external_attr member) 16) S_IRWXUGO = 0 ->
  fst (member_access member) = Some 0 /\
  (forall (os : OS) (w : world),
     install_member archive member target w
     = (click_echo ("* install: " ++ filename member ++ " => " ++ target
                      ++ snd (member_access member)) ;;
        (if Py.contains Py.sep target
         then paths_mkdirs (PosixPath.dirname target) else ret tt) ;;
        write_file target (payload member) ;;
        os_chmod target 0)%io w) /\
  (forall t : list call,
     chmods (exec (install_member (os:=trace_os) archive member target) t)
     = (chmods t ++ [(target, 0)])%list) /\
  (forall t : list call,
     exists before,
       exec (install_member (os:=trace_os) archive member target) t
       = (t ++ before ++ [WriteFile target (payload member); Chmod target 0])%list) /\
  (forall (default_mode : Z) (fs : gmap string file),
     (exec (install_member (os:=mem_os default_mode) archive member target) fs
        : gmap string file) !! target
     = Some {| data := payload member; mode := 0 |}) /\
  (forall other : ZipInfo,
     fst (member_access other) = None <-> create_system other <> 3).
Proof.
  intros Hunix Hzero.
  assert (Hacc : fst (member_access member) = Some 0).
  { rewrite member_access_unix by exact Hunix. rewrite Hzero. reflexivity. }
  split; [exact Hacc|]. split.
  { intros os w. unfold install_member.
    destruct (member_access member) as [access filemode_str].
    cbn [fst snd] in *. subst access. reflexivity. }
  split.
  { intros t. unfold exec. rewrite trace_install_member. cbn [fst].
    rewrite chmods_app, chmods_member_calls, Hacc. reflexivity. }
  split.
  { intros t. unfold exec. rewrite trace_install_member. cbn [fst].
    unfold member_calls. rewrite Hacc.
    exists ([Echo ("* install: " ++ filename member ++ " => " ++ target
                     ++ snd (member_access member))]
            ++ (if Py.contains Py.sep target
                then [Mkdirs (PosixPath.dirname target)] else []))%list.
    rewrite <- !app_assoc. reflexivity. }
  split.
  { intros default_mode fs. unfold exec. rewrite mem_install_member.
    cbn [fst]. rewrite Hacc. apply lookup_insert_eq. }
  intros other. split.
  - intros Hnone Hother. rewrite member_access_unix in Hnone by exact Hother.
    discriminate Hnone.
  - intros Hother. rewrite member_access_other by exact Hother. reflexivity.
Qed.

Lemma zero_mode_is_still_applied_witness :
  let member := {| filename := "secret.key"; create_system := 3;
                   external_attr := Z.shiftl (Py.oct "100000") 16;
                   payload := [x00] |} in
  create_system member = 3 /\
  Z.land (Z.shiftr (external_attr member) 16) S_IRWXUGO = 0 /\
  chmods (exec (install_member (os:=trace_os) [member] member "secret.key") [])
  = [("secret.key", 0)].
Proof.
  intros member. split; [reflexivity|]. split; [reflexivity|].
  destruct (zero_mode_is_still_applied [member] member "secret.key" eq_refl eq_refl)
    as (_ & _ & Hchmod & _).
  apply Hchmod.
Defined.

(** ** The cache and [download] *)

Lemma sink_writes (key : string) (chunks : list (list byte)) :
  forall (st : Cache.store) (sofar : list byte),
    Cache.temps st !! key = Some sofar ->
    for_each chunks (Cache.sink_write key) st
    = ({| Cache.entries := Cache.entries st;
          Cache.temps := <[key := (sofar ++ List.concat chunks)%list]> (Cache.temps st) |},
       inr tt).
Proof.
  induction chunks as [|chunk chunks IH]; intros st sofar Htemp; cbn.
  - rewrite app_nil_r, insert_id by exact Htemp. destruct st; reflexivity.
  - unfold bind, Cache.sink_write at 1. rewrite Htemp.
    rewrite (IH _ (sofar ++ chunk)%list) by apply lookup_insert_eq.
    cbn. rewrite insert_insert_eq, <- app_assoc. reflexivity.
Qed.

Lemma save_file_interrupted (key : string) (chunks : list (list byte))
    (e : exn) (st : Cache.store) :
  Cache.save_file key (job_artifacts (chunks, Some e)) st
  = ({| Cache.entries := Cache.entries st;
        Cache.temps := delete key (Cache.temps st) |}, inl e).
Proof.
  unfold Cache.save_file, Cache.open_temp, job_artifacts, bind. cbn [fst snd].
  rewrite (sink_writes key chunks _ []) by apply lookup_insert_eq.
  cbn. rewrite insert_insert_eq, delete_insert_eq. reflexivity.
Qed.

Lemma save_file_completed (key : string) (chunks : list (list byte))
    (st : Cache.store) :
  Cache.save_file key (job_artifacts (chunks, None)) st
  = ({| Cache.entries := <[key := List.concat chunks]> (Cache.entries st);
        Cache.temps := delete key (Cache.temps st) |}, inr tt).
Proof.
  unfold Cache.save_file, Cache.open_temp, job_artifacts, bind. cbn [fst snd].
  rewrite (sink_writes key chunks _ []) by apply lookup_insert_eq.
  cbn. unfold Cache.promote. cbn.
  rewrite lookup_insert_eq, insert_insert_eq, delete_insert_eq. reflexivity.
Qed.

Lemma get_miss_iff (key : string) (st : Cache.store) :
  outcome (Cache.get key) st = inl (KeyError key)
  <-> Cache.entries st !! key = None.
Proof.
  unfold outcome, Cache.get.
  destruct (Cache.entries st !! key); cbn; split; congruence.
Qed.

Lemma download_entry_miss (gitlab : string -> Z -> response) (e : entry)
    (w : dl_world) :
  Cache.entries (dl_cache w) !! zip_name (project e) (job_id e) = None ->
  download_entry gitlab e w
  = let downloading :=
      "* " ++ project e ++ ": " ++ Py.format_int (job_id e) ++ " => downloading..." in
    let downloaded :=
      "* " ++ project e ++ ": " ++ Py.format_int (job_id e) ++ " => downloaded." in
    match Cache.save_file (zip_name (project e) (job_id e))
            (job_artifacts (gitlab (project e) (job_id e))) (dl_cache w) with
    | (st, inl err) =>
        ({| dl_cache := st;
            dl_console := (dl_console w ++ [downloading])%list |},
         inl err)
    | (st, inr _) =>
        ({| dl_cache := st;
            dl_console := ((dl_console w ++ [downloading]) ++ [downloaded])%list |},
         inr tt)
    end.
Proof.
  intros Hmiss. unfold download_entry, on_cache, Cache.get. rewrite Hmiss.
  unfold bind, dl_echo. cbv beta iota zeta. cbn [dl_cache dl_console].
  destruct (Cache.save_file (zip_name (project e) (job_id e))
              (job_artifacts (gitlab (project e) (job_id e))) (dl_cache w))
    as [st [err|[]]]; reflexivity.
Qed.

(** C3. When [get(K)] misses and a save for [K] is interrupted, by an
    exception after any number of chunks, the exception goes on to the
    caller, [get(K)] still misses, the temporary file is gone and the
    entries are what they were (from any store, [get(K)] answers after
    an interrupted save what it answered before); [get(K)] also misses
    at every point
    inside the scope, so a save that is stopped dead exposes nothing
    either. A later save for [K] that completes makes [get(K)] return
    exactly the bytes written by it. The same holds through [download]:
    a broken transfer leaves a miss, and the next run with a good
    transfer stores the new content. *)
Theorem interrupted_save_is_not_retrievable (key : string) (st : Cache.store)
    (chunks : list (list byte)) (e : exn) :
  outcome (Cache.get key) st = inl (KeyError key) ->
  let interrupted := Cache.save_file key (job_artifacts (chunks, Some e)) in
  let st1 := exec interrupted st in
  outcome interrupted st = inl e /\
  outcome (Cache.get key) st1 = inl (KeyError key) /\
  Cache.temps st1 !! key = None /\
  Cache.entries st1 = Cache.entries st /\
  (forall st0 : Cache.store,
     outcome (Cache.get key) (exec interrupted st0)
     = outcome (Cache.get key) st0) /\
  (forall n : nat,
     outcome (Cache.get key)
       (exec (Cache.open_temp key ;;
              for_each (firstn n chunks) (Cache.sink_write key))%io st)
     = inl (KeyError key)) /\
  (forall chunks' : list (list byte),
     let completed := Cache.save_file key (job_artifacts (chunks', None)) in
     outcome completed st1 = inr tt /\
     outcome (Cache.get key) (exec completed st1) = inr (List.concat chunks')) /\
  (forall (gitlab gitlab' : string -> Z -> response) (ent : entry)
          (console : list string) (chunks' : list (list byte)),
     zip_name (project ent) (job_id ent) = key ->
     gitlab (project ent) (job_id ent) = (chunks, Some e) ->
     gitlab' (project ent) (job_id ent) = (chunks', None) ->
     let w := {| dl_cache := st; dl_console := console |} in
     let w1 := exec (download gitlab [ent]) w in
     outcome (download gitlab [ent]) w = inl e /\
     outcome (Cache.get key) (dl_cache w1) = inl (KeyError key) /\
     outcome (download gitlab' [ent]) w1 = inr tt /\
     outcome (Cache.get key) (dl_cache (exec (download gitlab' [ent]) w1))
     = inr (List.concat chunks')).
Proof.
  intros Hmiss interrupted st1. apply get_miss_iff in Hmiss.
  assert (Hst1 : st1 = {| Cache.entries := Cache.entries st;
                          Cache.temps := delete key (Cache.temps st) |}).
  { unfold st1, interrupted, exec. rewrite save_file_interrupted. reflexivity. }
  assert (Hget : forall (content : list byte) (s : Cache.store),
             Cache.entries s !! key = Some content ->
             outcome (Cache.get key) s = inr content).
  { intros content s Hs. unfold outcome, Cache.get. rewrite Hs. reflexivity. }
  split.
  { unfold interrupted, outcome. rewrite save_file_interrupted. reflexivity. }
  split.
  { apply get_miss_iff. rewrite Hst1. exact Hmiss. }
  split.
  { rewrite Hst1. apply lookup_delete_eq. }
  split.
  { rewrite Hst1. reflexivity. }
  split.
  { intros st0. unfold interrupted, exec. rewrite save_file_interrupted.
    unfold outcome, Cache.get. cbn [fst Cache.entries].
    destruct (Cache.entries st0 !! key); reflexivity. }
  split.
  { intros n. apply get_miss_iff. unfold exec, bind, Cache.open_temp.
    rewrite (sink_writes key (firstn n chunks) _ []) by apply lookup_insert_eq.
    exact Hmiss. }
  split.
  { intros chunks' completed. unfold completed, outcome, exec.
    rewrite save_file_completed. split; [reflexivity|].
    apply (Hget (List.concat chunks')). apply lookup_insert_eq. }
  intros gitlab gitlab' ent console chunks' Hkey Hbroken Hgood w w1.
  assert (Hrun : exists lines,
             download gitlab [ent] w
             = ({| dl_cache := st1; dl_console := lines |}, inl e)).
  { eexists. unfold download. cbn [for_each]. unfold bind.
    rewrite download_entry_miss by (rewrite Hkey; exact Hmiss).
    cbv zeta. rewrite Hbroken, Hkey. cbn [dl_cache].
    rewrite save_file_interrupted, Hst1. reflexivity. }
  destruct Hrun as [lines1 Hrun].
  assert (Hw1 : dl_cache w1 = st1).
  { unfold w1, exec. rewrite Hrun. reflexivity. }
  split; [unfold outcome; rewrite Hrun; reflexivity|].
  split; [rewrite Hw1; apply get_miss_iff; rewrite Hst1; exact Hmiss|].
  assert (Hrun' : exists lines,
             download gitlab' [ent] w1
             = ({| dl_cache :=
                     {| Cache.entries := <[key := List.concat chunks']> (Cache.entries st1);
                        Cache.temps := delete key (Cache.temps st1) |};
                   dl_console := lines |}, inr tt)).
  { eexists. unfold download. cbn [for_each]. unfold bind.
    rewrite download_entry_miss
      by (rewrite Hkey, Hw1, Hst1; exact Hmiss).
    cbv zeta. rewrite Hgood, Hkey, Hw1, save_file_completed. reflexivity. }
  destruct Hrun' as [lines Hrun'].
  split; [unfold outcome; rewrite Hrun'; reflexivity|].
  unfold exec. rewrite Hrun'. cbn [fst dl_cache].
  apply (Hget (List.concat chunks')). apply lookup_insert_eq.
Qed.

Lemma interrupted_save_is_not_retrievable_witness :
  let key := "42/7.zip" in
  let broken := [[x50; x4b]; [x03]] in
  let good := [[x50; x4b]; [x03; x04]] in
  let st1 := exec (Cache.save_file key
                     (job_artifacts (broken, Some (ConnectionError "reset"))))
               Cache.empty in
  outcome (Cache.get key) Cache.empty = inl (KeyError key) /\
  outcome (Cache.get key) st1 = inl (KeyError key) /\
  outcome (Cache.get key)
    (exec (Cache.save_file key (job_artifacts (good, None))) st1)
  = inr [x50; x4b; x03; x04].
Proof.
  intros key broken good st1. split; [reflexivity|].
  destruct (interrupted_save_is_not_retrievable key Cache.empty broken
              (ConnectionError "reset") eq_refl)
    as (_ & Hmiss & _ & _ & _ & _ & Hsave & _).
  split; [exact Hmiss|].
  destruct (Hsave good) as [_ Hget]. exact Hget.
Defined.

(** ** Runs *)

(** Installing an archive with member ["lib/x.so"] under the rule
    ["lib/" -> "vendor"] writes exactly ["vendor/x.so"], with the bytes
    of the member. *)
Example install_lib_to_vendor :
  install (os:=trace_os) [Sample.vendored] Sample.opened []
  = ([Echo "* install: lib/x.so => vendor/x.so   -rw-r--r--";
      Mkdirs "vendor";
      WriteFile "vendor/x.so" [x7f; x45; x4c; x46];
      Chmod "vendor/x.so" (Py.oct "644")], inr tt)
  /\ install (os:=mem_os (Py.oct "600")) [Sample.vendored] Sample.opened ∅
     = ({["vendor/x.so" := {| data := [x7f; x45; x4c; x46]; mode := Py.oct "644" |}]},
        inr tt).
Proof. split; vm_compute; reflexivity. Qed.

(** An entry whose archive is not in the cache stops the run with the
    miss. *)
Example install_missing_archive :
  install (os:=trace_os)
    [{| project := "43"; ref := "main"; job := "build"; job_id := 1;
        entry_install := [(".", "out")] |}; Sample.vendored] Sample.opened []
  = ([], inl (KeyError "43/1.zip")).
Proof. reflexivity. Qed.

(** An entry with an empty install mapping stops the run at the deletion
    of the loop variables, before its archive is looked up. *)
Example install_empty_mapping :
  install (os:=trace_os)
    [{| project := "42"; ref := "main"; job := "build"; job_id := 7;
        entry_install := [] |}] Sample.opened []
  = ([], inl (UnboundLocalError "source")).
Proof. reflexivity. Qed.

(** With an empty cache [download] fetches and stores; run again, it
    reports the archive as present and stores nothing new. *)
Example download_then_present :
  let gitlab (_ : string) (_ : Z) : response := ([[x50; x4b]; [x03; x04]], None) in
  let w0 := {| dl_cache := Cache.empty; dl_console := [] |} in
  let w1 := exec (download gitlab [Sample.vendored]) w0 in
  outcome (Cache.get "42/7.zip") (dl_cache w1) = inr [x50; x4b; x03; x04]
  /\ dl_console w1 = ["* 42: 7 => downloading..."; "* 42: 7 => downloaded."]
  /\ download gitlab [Sample.vendored] w1
     = ({| dl_cache := dl_cache w1;
           dl_console := (dl_console w1 ++ ["* 42: 7 => present"])%list |}, inr tt).
Proof. repeat split; vm_compute; reflexivity. Qed.



(** * Further properties *)

(** ** The client and its token *)

(** X1. [get_gitlab] succeeds exactly for the token types ["private"]
    and ["job"]. The client it builds carries the configured URL and
    exactly one token, of the configured kind, and
    [is_using_job_token] holds of it exactly for the type ["job"]. Any
    other type is a configuration error naming the type. *)
Theorem client_token_kind (cfg : config) :
  match get_gitlab cfg with
  | inr gitlab =>
      (token_type cfg = "private" \/ token_type cfg = "job") /\
      url gitlab = gitlab_url cfg /\
      oauth_token gitlab = None /\
      (is_using_job_token gitlab = true <-> token_type cfg = "job") /\
      (token_type cfg = "private" ->
       private_token gitlab = Some (token cfg) /\ job_token gitlab = None) /\
      (token_type cfg = "job" ->
       private_token gitlab = None /\ job_token gitlab = Some (token cfg))
  | inl f =>
      token_type cfg <> "private" /\ token_type cfg <> "job" /\
      f = ConfigException "token_type" ("Unknown token type: " ++ token_type cfg)
  end.
Proof.
  unfold get_gitlab.
  destruct (String.eqb_spec (token_type cfg) "private") as [Hp|Hp].
  - rewrite Hp. cbn. repeat split; auto; try discriminate.
  - destruct (String.eqb_spec (token_type cfg) "job") as [Hj|Hj].
    + rewrite Hj. cbn. repeat split; auto; try discriminate.
    + repeat split; assumption.
Qed.

Lemma client_token_kind_witness :
  token_type {| gitlab_url := "https://gitlab.example"; token_type := "job";
                token := "t0k3n" |} = "job" /\
  exists gitlab,
    get_gitlab {| gitlab_url := "https://gitlab.example"; token_type := "job";
                  token := "t0k3n" |} = inr gitlab /\
    private_token gitlab = None /\ job_token gitlab = Some "t0k3n".
Proof.
  split; [reflexivity|].
  pose proof (client_token_kind
                {| gitlab_url := "https://gitlab.example"; token_type := "job";
                   token := "t0k3n" |}) as Hkind.
  cbn in Hkind. destruct Hkind as (_ & _ & _ & _ & _ & Hjob).
  eexists. split; [reflexivity|]. exact (Hjob eq_refl).
Defined.

(** ** The latest successful job *)

Lemma first_named_none (job_name : string) (jobs : list gl_job) :
  first_named job_name jobs = None
  <-> forall k, List.In k jobs -> gl_job_name k <> job_name.
Proof.
  induction jobs as [|j jobs IH]; cbn.
  - split; [intros _ k [] | reflexivity].
  - destruct (String.eqb_spec (gl_job_name j) job_name) as [Heq|Hne].
    + split; [discriminate|]. intros Hall. destruct (Hall j); auto.
    + rewrite IH. split.
      * intros Hall k [<-|Hk]; auto.
      * intros Hall k Hk. apply Hall. right; exact Hk.
Qed.

Lemma first_named_some (job_name : string) (jobs : list gl_job) (i : Z) :
  first_named job_name jobs = Some i
  <-> exists earlier j later,
        jobs = (earlier ++ j :: later)%list /\
        gl_job_name j = job_name /\ gl_job_id j = i /\
        forall k, List.In k earlier -> gl_job_name k <> job_name.
Proof.
  induction jobs as [|j jobs IH]; cbn.
  - split; [discriminate|]. intros (earlier & j & later & Hjobs & _).
    destruct earlier; discriminate Hjobs.
  - destruct (String.eqb_spec (gl_job_name j) job_name) as [Heq|Hne].
    + split.
      * intros [= <-]. exists [], j, jobs. repeat split; auto; intros k [].
      * intros (earlier & j' & later & Hjobs & Hname & Hid & Hnone).
        destruct earlier as [|k earlier]; cbn in Hjobs.
        -- injection Hjobs as -> _. congruence.
        -- injection Hjobs as -> _. destruct (Hnone k); auto. left; reflexivity.
    + rewrite IH. split.
      * intros (earlier & j' & later & -> & Hname & Hid & Hnone).
        exists (j :: earlier), j', later. repeat split; auto.
        intros k [<-|Hk]; auto.
      * intros (earlier & j' & later & Hjobs & Hname & Hid & Hnone).
        destruct earlier as [|k earlier]; cbn in Hjobs.
        -- injection Hjobs as -> _. contradiction.
        -- injection Hjobs as -> ->. exists earlier, j', later.
           repeat split; auto. intros k' Hk'. apply Hnone. right; exact Hk'.
Qed.

Lemma search_pipelines_none (job_name : string) (ps : list gl_pipeline) :
  search_pipelines job_name ps = None
  <-> forall p, List.In p ps ->
        forall k, List.In k (success_jobs p) -> gl_job_name k <> job_name.
Proof.
  induction ps as [|p ps IH]; cbn.
  - split; [intros _ p [] | reflexivity].
  - destruct (first_named job_name (success_jobs p)) as [i|] eqn:Hfirst.
    + split; [discriminate|]. intros Hall.
      assert (Hnone : first_named job_name (success_jobs p) = None).
      { apply first_named_none. apply Hall. left; reflexivity. }
      congruence.
    + rewrite IH. pose proof (proj1 (first_named_none _ _) Hfirst) as Hp. split.
      * intros Hall q [<-|Hq]; [exact Hp | apply Hall, Hq].
      * intros Hall q Hq. apply Hall. right; exact Hq.
Qed.

Lemma search_pipelines_some (job_name : string) (ps : list gl_pipeline) (i : Z) :
  search_pipelines job_name ps = Some i
  <-> exists newer p older,
        ps = (newer ++ p :: older)%list /\
        first_named job_name (success_jobs p) = Some i /\
        forall q, List.In q newer -> first_named job_name (success_jobs q) = None.
Proof.
  induction ps as [|p ps IH]; cbn.
  - split; [discriminate|]. intros (newer & p & older & Hps & _).
    destruct newer; discriminate Hps.
  - destruct (first_named job_name (success_jobs p)) as [i'|] eqn:Hfirst.
    + split.
      * intros [= <-]. exists [], p, ps. repeat split; auto; intros q [].
      * intros (newer & p' & older & Hps & Hp' & Hnone).
        destruct newer as [|q newer]; cbn in Hps.
        -- injection Hps as -> _. congruence.
        -- injection Hps as -> _.
           rewrite (Hnone q) in Hfirst by (left; reflexivity). discriminate.
    + rewrite IH. split.
      * intros (newer & p' & older & -> & Hp' & Hnone).
        exists (p :: newer), p', older. repeat split; auto.
        intros q [<-|Hq]; auto.
      * intros (newer & p' & older & Hps & Hp' & Hnone).
        destruct newer as [|q newer]; cbn in Hps.
        -- injection Hps as -> _. congruence.
        -- injection Hps as -> ->. exists newer, p', older.
           repeat split; auto. intros q' Hq'. apply Hnone. right; exact Hq'.
Qed.

(** X2. [get_ref_last_successful_job] returns job [i] exactly when [i]
    is the first job of the wanted name in the listing: some pipeline
    has a successful job [j] of that name with id [i], no successful
    job listed before [j] in that pipeline has the name, and no
    pipeline listed before it has a successful job of the name. With
    the server's order (pipelines by id, descending) that is the job of
    the latest pipeline that has one. *)
Theorem last_successful_job_is_first_match (proj : gl_project)
    (ref job_name : string) (i : Z) :
  get_ref_last_successful_job proj ref job_name = inr i
  <-> exists newer p older earlier j later,
        pipelines proj ref = (newer ++ p :: older)%list /\
        success_jobs p = (earlier ++ j :: later)%list /\
        gl_job_name j = job_name /\ gl_job_id j = i /\
        (forall k, List.In k earlier -> gl_job_name k <> job_name) /\
        (forall q, List.In q newer ->
           forall k, List.In k (success_jobs q) -> gl_job_name k <> job_name).
Proof.
  unfold get_ref_last_successful_job.
  destruct (search_pipelines job_name (pipelines proj ref)) as [i'|] eqn:Hsearch.
  - split.
    + intros [= <-].
      destruct (proj1 (search_pipelines_some _ _ _) Hsearch)
        as (newer & p & older & Hps & Hfirst & Hnone).
      destruct (proj1 (first_named_some _ _ _) Hfirst)
        as (earlier & j & later & Hjobs & Hname & Hid & Hearlier).
      exists newer, p, older, earlier, j, later. repeat split; auto.
      intros q Hq. apply first_named_none, Hnone, Hq.
    + intros (newer & p & older & earlier & j & later
              & Hps & Hjobs & Hname & Hid & Hearlier & Hnewer).
      assert (Hsome : search_pipelines job_name (pipelines proj ref) = Some i).
      { apply search_pipelines_some. exists newer, p, older.
        split; [exact Hps|]. split.
        - apply first_named_some. exists earlier, j, later. auto.
        - intros q Hq. apply first_named_none, Hnewer, Hq. }
      congruence.
  - split; [discriminate|].
    intros (newer & p & older & earlier & j & later
            & Hps & Hjobs & Hname & Hid & Hearlier & Hnewer).
    rewrite search_pipelines_none in Hsearch.
    exfalso. apply (Hsearch p) with (k := j).
    + rewrite Hps. apply in_or_app. right; left; reflexivity.
    + rewrite Hjobs. apply in_or_app. right; left; reflexivity.
    + exact Hname.
Qed.

(** X3. [get_ref_last_successful_job] fails exactly when no listed
    pipeline has a successful job of the wanted name, and then with the
    message that names the job, the project path and the ref. *)
Theorem no_successful_job_is_an_error (proj : gl_project)
    (ref job_name : string) :
  (forall p, List.In p (pipelines proj ref) ->
     forall k, List.In k (success_jobs p) -> gl_job_name k <> job_name)
  <-> get_ref_last_successful_job proj ref job_name
      = inl (ClickException
               ("Could not find latest successful '" ++ job_name ++ "' job for "
                  ++ path_with_namespace proj ++ " ref " ++ ref)).
Proof.
  unfold get_ref_last_successful_job. rewrite <- search_pipelines_none.
  destruct (search_pipelines job_name (pipelines proj ref));
    split; congruence.
Qed.

Lemma last_successful_job_is_first_match_witness :
  get_ref_last_successful_job Sample.tools "main" "build" = inr 32.
Proof.
  apply (proj2 (last_successful_job_is_first_match Sample.tools "main" "build" 32)).
  exists [], {| success_jobs := [ {| gl_job_id := 31; gl_job_name := "test" |};
                                  {| gl_job_id := 32; gl_job_name := "build" |} ] |},
         [ {| success_jobs := [ {| gl_job_id := 21; gl_job_name := "build" |} ] |} ],
         [ {| gl_job_id := 31; gl_job_name := "test" |} ],
         {| gl_job_id := 32; gl_job_name := "build" |}, [].
  repeat split.
  - intros k [<-|[]]. discriminate.
  - intros q [].
Defined.

Lemma no_successful_job_is_an_error_witness :
  get_ref_last_successful_job Sample.tools "main" "deploy"
  = inl (ClickException
           "Could not find latest successful 'deploy' job for group/tools ref main").
Proof.
  apply (proj1 (no_successful_job_is_an_error Sample.tools "main" "deploy")).
  intros p [<-|[<-|[]]] k; cbn.
  - intros [<-|[<-|[]]]; discriminate.
  - intros [<-|[]]; discriminate.
Defined.

(** ** [update] *)

Lemma update_entries_resolved (projects_get : string -> exn + gl_project)
    (artifacts : list entry) (ids : list Z) :
  Forall2 (fun e i => resolve_entry projects_get e = inr i) artifacts ids ->
  forall console,
    update_entries projects_get artifacts console
    = ((console ++ zip_with update_line artifacts ids)%list,
       inr (zip_with locked_entry artifacts ids)).
Proof.
  induction 1 as [|e i artifacts ids He _ IH]; intros console; cbn.
  - rewrite app_nil_r. reflexivity.
  - unfold resolve_entry in He.
    destruct (projects_get (project e)) as [err|proj]; [discriminate|].
    rewrite He, IH, <- app_assoc. reflexivity.
Qed.

Lemma update_entries_stops (projects_get : string -> exn + gl_project)
    (before : list entry) (ids : list Z) (e : entry) (after : list entry)
    (f : failure) :
  Forall2 (fun e i => resolve_entry projects_get e = inr i) before ids ->
  resolve_entry projects_get e = inl f ->
  forall console,
    update_entries projects_get (before ++ e :: after) console
    = ((console ++ zip_with update_line before ids)%list, inl f).
Proof.
  intros Hbefore He. induction Hbefore as [|b i before ids Hb _ IH];
    intros console; cbn.
  - rewrite app_nil_r. unfold resolve_entry in He.
    destruct (projects_get (project e)) as [err|proj].
    + injection He as <-. reflexivity.
    + rewrite He. reflexivity.
  - unfold resolve_entry in Hb.
    destruct (projects_get (project b)) as [err|proj]; [discriminate|].
    rewrite Hb, IH, <- app_assoc. reflexivity.
Qed.

(** X4. With a job token [update] is refused: it raises the
    configuration error at once, whatever the server and the manifest
    are, and leaves the lock file and the console as they were.
    [download] is not refused with the same token: it runs its loop. *)
Theorem update_refuses_job_token (cfg : config)
    (projects_get : string -> exn + gl_project) (artifacts : list entry)
    (w : up_world) :
  token_type cfg = "job" ->
  update cfg projects_get artifacts w
  = (w, inl (ConfigException "token_type"
               "A job token cannot be used to update artifacts")) /\
  (forall (server : string -> Z -> response) (artifacts_lock : list entry)
          (dw : dl_world),
     download_command cfg server artifacts_lock dw
     = match download server artifacts_lock dw with
       | (dw', inl e) => (dw', inl (Raised e))
       | (dw', inr _) => (dw', inr tt)
       end).
Proof.
  intros Hjob. unfold update, download_command, get_gitlab.
  rewrite Hjob. split; reflexivity.
Qed.

Lemma update_refuses_job_token_witness :
  token_type Sample.job_config = "job" /\
  update Sample.job_config Sample.projects_get [Sample.vendored]
    {| lock_file := None; up_console := [] |}
  = ({| lock_file := None; up_console := [] |},
     inl (ConfigException "token_type"
            "A job token cannot be used to update artifacts")).
Proof.
  split; [reflexivity|].
  apply (update_refuses_job_token Sample.job_config Sample.projects_get
           [Sample.vendored] {| lock_file := None; up_console := [] |} eq_refl).
Defined.

(** X5. With a private token, when every entry of the manifest resolves
    to a job, [update] succeeds: the lock file becomes the manifest's
    entries in the same order, each with its project, ref, job name and
    install mapping unchanged and its job id set to the resolved one
    (whatever id it had), and one line per entry is written, in
    order. *)
Theorem update_locks_every_entry (cfg : config)
    (projects_get : string -> exn + gl_project) (artifacts : list entry)
    (ids : list Z) (w : up_world) :
  token_type cfg = "private" ->
  Forall2 (fun e i => resolve_entry projects_get e = inr i) artifacts ids ->
  update cfg projects_get artifacts w
  = ({| lock_file := Some (zip_with locked_entry artifacts ids);
        up_console := (up_console w ++ zip_with update_line artifacts ids)%list |},
     inr tt) /\
  length (zip_with locked_entry artifacts ids) = length artifacts /\
  Forall2 (fun e l => project l = project e /\ ref l = ref e /\ job l = job e /\
                      entry_install l = entry_install e /\
                      resolve_entry projects_get e = inr (job_id l))
    artifacts (zip_with locked_entry artifacts ids).
Proof.
  intros Hprivate Hids. split; [|split].
  - unfold update, get_gitlab. rewrite Hprivate. cbn.
    rewrite (update_entries_resolved _ _ _ Hids). reflexivity.
  - rewrite length_zip_with. apply Forall2_length in Hids. lia.
  - induction Hids as [|e i artifacts ids He _ IH]; cbn; constructor; auto.
Qed.

Lemma update_locks_every_entry_witness :
  token_type Sample.private_config = "private" /\
  Forall2 (fun e i => resolve_entry Sample.projects_get e = inr i)
    [{| project := "42"; ref := "main"; job := "build"; job_id := 0;
        entry_install := [("lib/", "vendor")] |}] [32] /\
  update Sample.private_config Sample.projects_get
    [{| project := "42"; ref := "main"; job := "build"; job_id := 0;
        entry_install := [("lib/", "vendor")] |}]
    {| lock_file := None; up_console := [] |}
  = ({| lock_file :=
          Some [{| project := "42"; ref := "main"; job := "build"; job_id := 32;
                   entry_install := [("lib/", "vendor")] |}];
        up_console := ["* 42: main => 32"] |}, inr tt).
Proof.
  assert (Hids : Forall2 (fun e i => resolve_entry Sample.projects_get e = inr i)
                   [{| project := "42"; ref := "main"; job := "build"; job_id := 0;
                       entry_install := [("lib/", "vendor")] |}] [32]).
  { repeat constructor. }
  split; [reflexivity|]. split; [exact Hids|].
  apply (update_locks_every_entry Sample.private_config Sample.projects_get _ _
           {| lock_file := None; up_console := [] |} eq_refl Hids).
Defined.

(** X6. [update] writes the lock file only after every entry is
    resolved: when the entries before some entry resolve and that entry
    does not (its project cannot be fetched, or it has no successful
    job of the name), [update] raises that entry's failure, the lock
    file is what it was, and the lines of the entries before it have
    been written; the entries after it are not looked at. *)
Theorem update_is_all_or_nothing (cfg : config)
    (projects_get : string -> exn + gl_project)
    (before : list entry) (ids : list Z) (e : entry) (after : list entry)
    (f : failure) (w : up_world) :
  token_type cfg = "private" ->
  Forall2 (fun e i => resolve_entry projects_get e = inr i) before ids ->
  resolve_entry projects_get e = inl f ->
  update cfg projects_get (before ++ e :: after) w
  = ({| lock_file := lock_file w;
        up_console := (up_console w ++ zip_with update_line before ids)%list |},
     inl f).
Proof.
  intros Hprivate Hbefore He. unfold update, get_gitlab. rewrite Hprivate. cbn.
  rewrite (update_entries_stops _ _ _ _ _ _ Hbefore He). reflexivity.
Qed.

Lemma update_is_all_or_nothing_witness :
  let known := {| project := "42"; ref := "main"; job := "build"; job_id := 0;
                  entry_install := [] |} in
  let unknown := {| project := "42"; ref := "main"; job := "deploy"; job_id := 0;
                    entry_install := [] |} in
  let old := Some [Sample.vendored] in
  token_type Sample.private_config = "private" /\
  Forall2 (fun e i => resolve_entry Sample.projects_get e = inr i) [known] [32] /\
  resolve_entry Sample.projects_get unknown
  = inl (ClickException
           "Could not find latest successful 'deploy' job for group/tools ref main") /\
  update Sample.private_config Sample.projects_get [known; unknown; known]
    {| lock_file := old; up_console := [] |}
  = ({| lock_file := old; up_console := ["* 42: main => 32"] |},
     inl (ClickException
            "Could not find latest successful 'deploy' job for group/tools ref main")).
Proof.
  intros known unknown old.
  assert (Hids : Forall2 (fun e i => resolve_entry Sample.projects_get e = inr i)
                   [known] [32]) by repeat constructor.
  split; [reflexivity|]. split; [exact Hids|]. split; [reflexivity|].
  apply (update_is_all_or_nothing Sample.private_config Sample.projects_get
           [known] [32] unknown [known] _ {| lock_file := old; up_console := [] |}
           eq_refl Hids eq_refl).
Defined.

(** ** Cache names *)

Lemma contains_app (c : ascii) (a b : string) :
  Py.contains c (a ++ b) = Py.contains c a || Py.contains c b.
Proof.
  induction a as [|c' a IH]; [reflexivity|].
  change (Py.contains c (String c' a ++ b))
    with (Ascii.eqb c' c || Py.contains c (a ++ b)).
  rewrite IH. apply orb_assoc.
Qed.

Lemma append_cancel_l (a x y : string) : a ++ x = a ++ y -> x = y.
Proof.
  induction a as [|c a IH]; intros Heq; [exact Heq|].
  apply IH. inversion Heq. reflexivity.
Qed.

Lemma length_append (a b : string) :
  String.length (a ++ b) = (String.length a + String.length b)%nat.
Proof.
  induction a as [|c a IH]; [reflexivity|].
  change (String.length (String c a ++ b)) with (S (String.length (a ++ b))).
  rewrite IH. reflexivity.
Qed.

Lemma append_cancel_r (x y t : string) : x ++ t = y ++ t -> x = y.
Proof.
  revert y. induction x as [|c x IH]; intros [|c' y] Heq.
  - reflexivity.
  - exfalso. apply (f_equal String.length) in Heq.
    rewrite !length_append in Heq. cbn [String.length] in Heq. lia.
  - exfalso. apply (f_equal String.length) in Heq.
    rewrite !length_append in Heq. cbn [String.length] in Heq. lia.
  - inversion Heq as [[Hc Hrest]]. f_equal. apply IH, Hrest.
Qed.

Lemma last_separator_splits (a b u v : string) :
  Py.contains Py.sep u = false -> Py.contains Py.sep v = false ->
  a ++ "/" ++ u = b ++ "/" ++ v -> a = b /\ u = v.
Proof.
  intros Hu Hv. revert b.
  induction a as [|c a IH]; intros [|c' b] Heq.
  - split; [reflexivity|]. now inversion Heq.
  - exfalso. assert (Hrest : u = b ++ "/" ++ v)
      by (inversion Heq as [[Hc Hrest]]; exact Hrest).
    rewrite Hrest, contains_app in Hu. apply orb_false_elim in Hu as [_ Hu].
    discriminate Hu.
  - exfalso. assert (Hrest : v = a ++ "/" ++ u)
      by (inversion Heq as [[Hc Hrest]]; exact (eq_sym Hrest)).
    rewrite Hrest, contains_app in Hv. apply orb_false_elim in Hv as [_ Hv].
    discriminate Hv.
  - inversion Heq as [[Hc Hrest]]. destruct (IH b Hrest) as [-> ->].
    split; reflexivity.
Qed.

Lemma digits_have_no_separator (d : Decimal.uint) :
  Py.contains Py.sep (NilEmpty.string_of_uint d) = false.
Proof. induction d; cbn; auto. Qed.

Lemma format_int_no_separator (n : Z) :
  Py.contains Py.sep (Py.format_int n) = false.
Proof.
  unfold Py.format_int, NilZero.string_of_int, NilZero.string_of_uint.
  destruct (Z.to_int n) as [d|d]; destruct d; cbn;
    try reflexivity; apply digits_have_no_separator.
Qed.

Lemma format_int_inj (n m : Z) : Py.format_int n = Py.format_int m -> n = m.
Proof.
  unfold Py.format_int. intros Heq.
  assert (Hnorm : forall z, Z.to_int z <> Decimal.Pos Decimal.Nil
                            /\ Z.to_int z <> Decimal.Neg Decimal.Nil).
  { intros [|p|p]; cbn; split; try discriminate;
      intros [= Hnil]; exact (DecimalPos.Unsigned.to_uint_nonnil p Hnil). }
  apply DecimalZ.to_int_inj.
  apply (f_equal NilZero.int_of_string) in Heq.
  rewrite !NilZero.isi in Heq by apply Hnorm.
  congruence.
Qed.

Lemma zip_name_plain (p : string) (n : Z) :
  p <> EmptyString -> Py.endswith p "/" = false ->
  zip_name p n = p ++ "/" ++ Py.format_int n ++ ".zip".
Proof.
  intros Hne Hend. unfold zip_name. apply join_relative; [|exact Hne|exact Hend].
  unfold PosixPath.isabs, Py.startswith.
  pose proof (format_int_no_separator n) as Hsep.
  destruct (Py.format_int n) as [|c rest]; [reflexivity|].
  cbn in Hsep. apply orb_false_elim in Hsep as [Hc _].
  change (String c rest ++ ".zip") with (String c (rest ++ ".zip")).
  cbn [String.prefix].
  destruct (ascii_dec "/" c) as [<-|_]; [discriminate Hc | reflexivity].
Qed.

(** X7. Cache names do not collide: for project names that are not
    empty and do not end in the separator, two entries get the same
    [zip_name] only if they have the same project and the same job
    id. A name has the project, the separator, the id in decimal and
    [".zip"]. *)
Theorem zip_name_is_injective (p q : string) (n m : Z) :
  p <> EmptyString -> Py.endswith p "/" = false ->
  q <> EmptyString -> Py.endswith q "/" = false ->
  zip_name p n = p ++ "/" ++ Py.format_int n ++ ".zip" /\
  (zip_name p n = zip_name q m -> p = q /\ n = m).
Proof.
  intros Hp Hpend Hq Hqend.
  split; [apply zip_name_plain; assumption|].
  rewrite !zip_name_plain by assumption. intros Heq.
  apply last_separator_splits in Heq.
  - destruct Heq as [-> Hfile]. split; [reflexivity|].
    apply format_int_inj. exact (append_cancel_r _ _ _ Hfile).
  - rewrite contains_app, format_int_no_separator. reflexivity.
  - rewrite contains_app, format_int_no_separator. reflexivity.
Qed.

Lemma zip_name_is_injective_witness :
  "group/tools" <> EmptyString /\ Py.endswith "group/tools" "/" = false /\
  zip_name "group/tools" 32 = "group/tools/32.zip" /\
  (zip_name "group/tools" 32 = zip_name "group/tools" 32 ->
   "group/tools" = "group/tools" /\ 32 = 32).
Proof.
  assert (Hne : "group/tools" <> EmptyString) by discriminate.
  split; [exact Hne|]. split; [reflexivity|].
  exact (zip_name_is_injective "group/tools" "group/tools" 32 32
           Hne eq_refl Hne eq_refl).
Defined.

(** ** [download] and the cache *)

Lemma download_entry_hit (gitlab : string -> Z -> response) (e : entry)
    (w : dl_world) (content : list byte) :
  Cache.entries (dl_cache w) !! zip_name (project e) (job_id e) = Some content ->
  download_entry gitlab e w
  = ({| dl_cache := dl_cache w;
        dl_console := (dl_console w ++ [present_line e])%list |}, inr tt).
Proof.
  intros Hhit. unfold download_entry, on_cache, Cache.get. rewrite Hhit.
  reflexivity.
Qed.

Lemma save_file_response (key : string) (r : response) (st : Cache.store) :
  Cache.save_file key (job_artifacts r) st
  = match snd r with
    | Some err =>
        ({| Cache.entries := Cache.entries st;
            Cache.temps := delete key (Cache.temps st) |}, inl err)
    | None =>
        ({| Cache.entries := <[key := List.concat (fst r)]> (Cache.entries st);
            Cache.temps := delete key (Cache.temps st) |}, inr tt)
    end.
Proof.
  destruct r as [chunks [err|]]; cbn [fst snd].
  - apply save_file_interrupted.
  - apply save_file_completed.
Qed.

(** One turn of the loop of [download]: what is in the cache stays,
    no temporary file appears, and on a normal return the entry's own
    name is in the cache. *)
Lemma download_entry_keeps (gitlab : string -> Z -> response) (e : entry)
    (w : dl_world) :
  let w' := fst (download_entry gitlab e w) in
  (forall key content,
     Cache.entries (dl_cache w) !! key = Some content ->
     Cache.entries (dl_cache w') !! key = Some content) /\
  (forall key,
     Cache.temps (dl_cache w) !! key = None ->
     Cache.temps (dl_cache w') !! key = None) /\
  (snd (download_entry gitlab e w) = inr tt ->
   is_Some (Cache.entries (dl_cache w') !! zip_name (project e) (job_id e))).
Proof.
  destruct (Cache.entries (dl_cache w) !! zip_name (project e) (job_id e))
    as [present|] eqn:Hkey.
  - rewrite (download_entry_hit gitlab e w present Hkey). cbn.
    split; [auto|]. split; [auto|]. intros _. rewrite Hkey. eexists; reflexivity.
  - rewrite (download_entry_miss gitlab e w Hkey). cbv zeta.
    rewrite save_file_response.
    destruct (snd (gitlab (project e) (job_id e))) as [err|]; cbn.
    + split; [auto|]. split; [|discriminate].
      intros key Hnone. destruct (decide (zip_name (project e) (job_id e) = key))
        as [<-|Hne]; [apply lookup_delete_eq|].
      rewrite lookup_delete_ne by exact Hne. exact Hnone.
    + split; [|split].
      * intros key content Hsome.
        rewrite lookup_insert_ne; [exact Hsome|]. congruence.
      * intros key Hnone. destruct (decide (zip_name (project e) (job_id e) = key))
          as [<-|Hne]; [apply lookup_delete_eq|].
        rewrite lookup_delete_ne by exact Hne. exact Hnone.
      * intros _. rewrite lookup_insert_eq. eexists; reflexivity.
Qed.

Lemma download_cons (gitlab : string -> Z -> response) (e : entry)
    (rest : list entry) (w : dl_world) :
  download gitlab (e :: rest) w
  = match download_entry gitlab e w with
    | (w', inl err) => (w', inl err)
    | (w', inr _) => download gitlab rest w'
    end.
Proof. reflexivity. Qed.

Lemma download_keeps (gitlab : string -> Z -> response) (lock : list entry) :
  forall w : dl_world,
    let w' := fst (download gitlab lock w) in
    (forall key content,
       Cache.entries (dl_cache w) !! key = Some content ->
       Cache.entries (dl_cache w') !! key = Some content) /\
    (forall key,
       Cache.temps (dl_cache w) !! key = None ->
       Cache.temps (dl_cache w') !! key = None).
Proof.
  induction lock as [|e rest IH]; intros w; [split; auto|].
  cbv zeta. rewrite download_cons.
  destruct (download_entry_keeps gitlab e w) as (Hentries & Htemps & _).
  destruct (download_entry gitlab e w) as [w1 [err|[]]]; cbn [fst] in *.
  - split; assumption.
  - destruct (IH w1) as [Hentries' Htemps']. split; auto.
Qed.

Lemma download_all_present (server : string -> Z -> response)
    (lock : list entry) :
  forall w : dl_world,
    (forall e, List.In e lock ->
       is_Some (Cache.entries (dl_cache w) !! zip_name (project e) (job_id e))) ->
    download server lock w
    = ({| dl_cache := dl_cache w;
          dl_console := (dl_console w ++ map present_line lock)%list |}, inr tt).
Proof.
  induction lock as [|e rest IH]; intros w Hall.
  - cbn. rewrite app_nil_r. destruct w; reflexivity.
  - rewrite download_cons.
    destruct (Hall e (or_introl eq_refl)) as [content Hhit].
    rewrite (download_entry_hit server e w content Hhit).
    rewrite IH by (intros e' He'; apply Hall; right; exact He').
    cbn. rewrite <- app_assoc. reflexivity.
Qed.

(** X8. [download] never changes or removes what is already in the
    cache, and leaves no temporary file behind: whatever the server
    answers and however the run ends, every name that had an entry has
    the same bytes afterwards, and a name without a temporary file
    before has none after. *)
Theorem download_keeps_the_cache (gitlab : string -> Z -> response)
    (lock : list entry) (w : dl_world) :
  (forall key content,
     outcome (Cache.get key) (dl_cache w) = inr content ->
     outcome (Cache.get key) (dl_cache (exec (download gitlab lock) w))
     = inr content) /\
  (forall key,
     Cache.temps (dl_cache w) !! key = None ->
     Cache.temps (dl_cache (exec (download gitlab lock) w)) !! key = None).
Proof.
  destruct (download_keeps gitlab lock w) as [Hentries Htemps].
  split; [|exact Htemps].
  intros key content Hget. unfold outcome, Cache.get in *. unfold exec.
  destruct (Cache.entries (dl_cache w) !! key) as [old|] eqn:Hold;
    [|discriminate].
  injection Hget as ->. rewrite (Hentries key content Hold). reflexivity.
Qed.

Lemma download_keeps_the_cache_witness :
  let busy := {| dl_cache := {| Cache.entries := {["9/1.zip" := [x01]]};
                                Cache.temps := ∅ |};
                 dl_console := [] |} in
  let broken (_ : string) (_ : Z) : response :=
    ([[x50]], Some (ConnectionError "reset")) in
  outcome (Cache.get "9/1.zip") (dl_cache busy) = inr [x01] /\
  outcome (Cache.get "9/1.zip")
    (dl_cache (exec (download broken [Sample.vendored]) busy)) = inr [x01] /\
  Cache.temps (dl_cache busy) !! "42/7.zip" = None /\
  Cache.temps (dl_cache (exec (download broken [Sample.vendored]) busy)) !! "42/7.zip"
  = None.
Proof.
  intros busy broken.
  destruct (download_keeps_the_cache broken [Sample.vendored] busy)
    as [Hentries Htemps].
  split; [reflexivity|]. split; [exact (Hentries "9/1.zip" [x01] eq_refl)|].
  split; [reflexivity|]. exact (Htemps "42/7.zip" eq_refl).
Defined.

(** X9. When the server completes the transfer of every entry,
    [download] returns normally, every entry's archive can then be got
    from the cache, and running [download] again, against any server,
    fetches nothing: it leaves the cache as it is and writes one
    "present" line per entry. *)
Theorem download_then_all_present (gitlab : string -> Z -> response)
    (lock : list entry) (w : dl_world) :
  (forall e, List.In e lock -> snd (gitlab (project e) (job_id e)) = None) ->
  exists w1,
    download gitlab lock w = (w1, inr tt) /\
    (forall e, List.In e lock ->
       exists content,
         outcome (Cache.get (zip_name (project e) (job_id e))) (dl_cache w1)
         = inr content) /\
    (forall server : string -> Z -> response,
       download server lock w1
       = ({| dl_cache := dl_cache w1;
             dl_console := (dl_console w1 ++ map present_line lock)%list |},
          inr tt)).
Proof.
  intros Hgood.
  assert (Hrun : exists w1,
             download gitlab lock w = (w1, inr tt) /\
             forall e, List.In e lock ->
               is_Some (Cache.entries (dl_cache w1) !! zip_name (project e) (job_id e))).
  { revert w. induction lock as [|e rest IH]; intros w.
    - exists w. split; [reflexivity | intros e []].
    - rewrite download_cons.
      destruct (download_entry_keeps gitlab e w) as (_ & _ & Hown).
      assert (Hok : snd (download_entry gitlab e w) = inr tt).
      { destruct (Cache.entries (dl_cache w) !! zip_name (project e) (job_id e))
          as [present|] eqn:Hkey.
        - rewrite (download_entry_hit gitlab e w present Hkey). reflexivity.
        - rewrite (download_entry_miss gitlab e w Hkey). cbv zeta.
          rewrite save_file_response, (Hgood e (or_introl eq_refl)). reflexivity. }
      specialize (Hown Hok).
      destruct (download_entry gitlab e w) as [w0 [err|[]]]; [discriminate Hok|].
      cbn [fst] in Hown.
      destruct (IH (fun e' He' => Hgood e' (or_intror He')) w0) as (w1 & Hrest & Hall).
      exists w1. split; [exact Hrest|].
      intros e' [<-|He']; [|apply Hall, He'].
      destruct Hown as [content Hcontent].
      destruct (download_keeps gitlab rest w0) as [Hentries _].
      rewrite Hrest in Hentries. cbn [fst] in Hentries.
      rewrite (Hentries _ _ Hcontent). eexists; reflexivity. }
  destruct Hrun as (w1 & Hrun & Hall).
  exists w1. split; [exact Hrun|]. split.
  - intros e He. destruct (Hall e He) as [content Hcontent].
    exists content. unfold outcome, Cache.get. rewrite Hcontent. reflexivity.
  - intros server. apply download_all_present. exact Hall.
Qed.

Lemma download_then_all_present_witness :
  let good (_ : string) (_ : Z) : response := ([[x50; x4b]], None) in
  let w := {| dl_cache := Cache.empty; dl_console := [] |} in
  (forall e, List.In e [Sample.vendored] ->
     snd (good (project e) (job_id e)) = None) /\
  exists w1,
    download good [Sample.vendored] w = (w1, inr tt) /\
    exists content,
      outcome (Cache.get "42/7.zip") (dl_cache w1) = inr content.
Proof.
  intros good w.
  assert (Hgood : forall e, List.In e [Sample.vendored] ->
                    snd (good (project e) (job_id e)) = None)
    by (intros e _; reflexivity).
  split; [exact Hgood|].
  destruct (download_then_all_present good [Sample.vendored] w Hgood)
    as (w1 & Hrun & Hall & _).
  exists w1. split; [exact Hrun|].
  exact (Hall Sample.vendored (or_introl eq_refl)).
Defined.

(** X10. A transfer that breaks stops [download]: when the entries
    before an entry download normally, that entry is not in the cache
    and the server breaks its transfer with an exception, [download]
    raises that exception; the cache holds what it held after the
    entries before, nothing is stored for the broken entry or for the
    entries after it. *)
Theorem download_stops_at_broken_transfer (gitlab : string -> Z -> response)
    (before : list entry) (e : entry) (after : list entry)
    (w w1 : dl_world) (chunks : list (list byte)) (err : exn) :
  download gitlab before w = (w1, inr tt) ->
  Cache.entries (dl_cache w1) !! zip_name (project e) (job_id e) = None ->
  gitlab (project e) (job_id e) = (chunks, Some err) ->
  outcome (download gitlab (before ++ e :: after)) w = inl err /\
  Cache.entries (dl_cache (exec (download gitlab (before ++ e :: after)) w))
  = Cache.entries (dl_cache w1) /\
  outcome (Cache.get (zip_name (project e) (job_id e)))
    (dl_cache (exec (download gitlab (before ++ e :: after)) w))
  = inl (KeyError (zip_name (project e) (job_id e))).
Proof.
  intros Hbefore Hmiss Hbroken.
  assert (Hrun : exists lines,
             download gitlab (before ++ e :: after) w
             = ({| dl_cache :=
                     {| Cache.entries := Cache.entries (dl_cache w1);
                        Cache.temps := delete (zip_name (project e) (job_id e))
                                         (Cache.temps (dl_cache w1)) |};
                   dl_console := lines |}, inl err)).
  { eexists. unfold download. rewrite for_each_app. unfold bind.
    fold (download gitlab before). rewrite Hbefore. cbn [for_each]. unfold bind.
    rewrite (download_entry_miss gitlab e w1 Hmiss). cbv zeta.
    rewrite save_file_response, Hbroken. reflexivity. }
  destruct Hrun as [lines Hrun]. unfold outcome, exec. rewrite Hrun. cbn.
  split; [reflexivity|]. split; [reflexivity|].
  unfold Cache.get. cbn. rewrite Hmiss. reflexivity.
Qed.

Lemma download_stops_at_broken_transfer_witness :
  let second := {| project := "42"; ref := "main"; job := "build"; job_id := 8;
                   entry_install := [] |} in
  let server (_ : string) (id : Z) : response :=
    if id =? 7 then ([[x50; x4b]], None)
    else ([[x50]], Some (ConnectionError "reset")) in
  let w := {| dl_cache := Cache.empty; dl_console := [] |} in
  let w1 := fst (download server [Sample.vendored] w) in
  download server [Sample.vendored] w = (w1, inr tt) /\
  Cache.entries (dl_cache w1) !! zip_name (project second) (job_id second) = None /\
  server (project second) (job_id second) = ([[x50]], Some (ConnectionError "reset")) /\
  outcome (download server ([Sample.vendored] ++ second :: [Sample.vendored])) w
  = inl (ConnectionError "reset").
Proof.
  intros second server w w1.
  assert (Hbefore : download server [Sample.vendored] w = (w1, inr tt))
    by (vm_compute; reflexivity).
  assert (Hmiss : Cache.entries (dl_cache w1)
                    !! zip_name (project second) (job_id second) = None)
    by (vm_compute; reflexivity).
  split; [exact Hbefore|]. split; [exact Hmiss|]. split; [reflexivity|].
  destruct (download_stops_at_broken_transfer server [Sample.vendored] second
              [Sample.vendored] w w1 [[x50]] (ConnectionError "reset")
              Hbefore Hmiss eq_refl) as (Hout & _).
  exact Hout.
Defined.

(** ** [install] over the lock file *)






(** X13. A failure inside the pass over an archive ends the pass, on
    any operating system: when the members before a member are dealt
    with normally and that member's turn raises, [install_archive]
    raises the same exception and leaves the world as that turn left
    it; the members after it are not touched. *)
Theorem install_archive_stops_at_failure (os : OS) (installs : list rule)
    (before : list ZipInfo) (member : ZipInfo) (after : list ZipInfo)
    (w w1 w2 : world) (err : exn) :
  let archive := (before ++ member :: after)%list in
  for_each before (install_one installs archive) w = (w1, inr tt) ->
  install_one installs archive member w1 = (w2, inl err) ->
  install_archive installs archive w = (w2, inl err).
Proof.
  intros archive Hbefore Hfail. unfold install_archive.
  unfold archive at 1. rewrite for_each_app. unfold bind.
  rewrite Hbefore. cbn [for_each]. unfold bind. rewrite Hfail. reflexivity.
Qed.

Lemma install_archive_stops_at_failure_witness :
  let a := {| filename := "a"; create_system := 0; external_attr := 0;
              payload := [x01] |} in
  let b := {| filename := "b"; create_system := 0; external_attr := 0;
              payload := [x02] |} in
  let os := guarded_os (String.eqb "out/b") in
  let installs := compile_installs [(".", "out")] in
  for_each [a] (install_one (os:=os) installs [a; b; a]) []
  = ([Echo "* install: a => out/a"; Mkdirs "out"; WriteFile "out/a" [x01]], inr tt) /\
  install_archive (os:=os) installs [a; b; a] []
  = ([Echo "* install: a => out/a"; Mkdirs "out"; WriteFile "out/a" [x01];
      Echo "* install: b => out/b"; Mkdirs "out"], inl (OSError "out/b")).
Proof.
  intros a b os installs.
  assert (Hbefore : for_each [a] (install_one (os:=os) installs [a; b; a]) []
                    = ([Echo "* install: a => out/a"; Mkdirs "out";
                        WriteFile "out/a" [x01]], inr tt))
    by reflexivity.
  split; [exact Hbefore|].
  exact (install_archive_stops_at_failure os installs [a] b [a] [] _ _
           (OSError "out/b") Hbefore eq_refl).
Defined.

(** ** What is on disk after a pass *)






(** ** Targets of a rule *)

Lemma join_inj (d r1 r2 : string) :
  PosixPath.isabs r1 = false -> PosixPath.isabs r2 = false ->
  PosixPath.join d r1 = PosixPath.join d r2 -> r1 = r2.
Proof.
  unfold PosixPath.isabs, PosixPath.join. intros -> ->.
  destruct (String.eqb d EmptyString || Py.endswith d "/"); intros Heq.
  - exact (append_cancel_l _ _ _ Heq).
  - apply append_cancel_l in Heq. exact (append_cancel_l _ _ _ Heq).
Qed.

(** X15. A directory rule does not send two different members to one
    target: two filenames that the rule matches, each relative after
    the pattern, with the same translation are the same filename. The
    same holds of the copy-all rule for relative filenames. *)
Theorem rule_targets_are_distinct (source destination f1 f2 : string) :
  Py.endswith source "/" = true ->
  fst (compile_rule source destination) f1 = true ->
  fst (compile_rule source destination) f2 = true ->
  PosixPath.isabs (Py.slice_from f1 (Py.len source)) = false ->
  PosixPath.isabs (Py.slice_from f2 (Py.len source)) = false ->
  (snd (compile_rule source destination) f1
   = snd (compile_rule source destination) f2 -> f1 = f2) /\
  (forall g1 g2,
     PosixPath.isabs g1 = false -> PosixPath.isabs g2 = false ->
     snd (compile_rule "." destination) g1 = snd (compile_rule "." destination) g2 ->
     g1 = g2).
Proof.
  intros Hend. unfold compile_rule at 1 2 3 4.
  rewrite (endswith_sep_not_dot _ Hend), Hend. cbn [fst snd].
  intros Hm1 Hm2 Hr1 Hr2. split.
  - intros Heq. apply join_inj in Heq; [|assumption|assumption].
    apply startswith_iff in Hm1 as [rest1 ->].
    apply startswith_iff in Hm2 as [rest2 ->].
    rewrite !slice_from_app in Heq. rewrite Heq. reflexivity.
  - intros g1 g2 Hg1 Hg2 Heq. cbn in Heq. exact (join_inj _ _ _ Hg1 Hg2 Heq).
Qed.

Lemma rule_targets_are_distinct_witness :
  Py.endswith "lib/" "/" = true /\
  fst (compile_rule "lib/" "vendor") "lib/x.so" = true /\
  PosixPath.isabs (Py.slice_from "lib/x.so" (Py.len "lib/")) = false /\
  (snd (compile_rule "lib/" "vendor") "lib/x.so"
   = snd (compile_rule "lib/" "vendor") "lib/x.so" -> "lib/x.so" = "lib/x.so").
Proof.
  split; [reflexivity|]. split; [reflexivity|]. split; [reflexivity|].
  destruct (rule_targets_are_distinct "lib/" "vendor" "lib/x.so" "lib/x.so"
              eq_refl eq_refl eq_refl eq_refl eq_refl) as [Hinj _].
  exact Hinj.
Defined.

(** ** The mode shown in the progress line *)

Lemma filemode_column_ext (default : string) (m m' : Z)
    (table : list (Z * string)) :
  Forall (fun entry => Z.land m (fst entry) = Z.land m' (fst entry)) table ->
  Stat.filemode_column default m table = Stat.filemode_column default m' table.
Proof.
  induction 1 as [|[bit char] table Hbit _ IH]; cbn; [reflexivity|].
  cbn in Hbit. rewrite Hbit, IH. reflexivity.
Qed.

Lemma type_bits_clear_of_low (fm bit : Z) :
  0 <= bit < 4096 -> Z.land (Stat.S_IFMT fm) bit = 0.
Proof.
  intros Hbit. unfold Stat.S_IFMT. change (Py.oct "170000") with (Z.shiftl 15 12).
  apply Z.bits_inj'. intros n Hn. rewrite !Z.land_spec, Z.bits_0.
  destruct (Z.ltb_spec n 12) as [Hlt|Hge].
  - rewrite Z.shiftl_spec_low by exact Hlt. rewrite andb_false_r. reflexivity.
  - assert (Hhigh : Z.testbit bit n = false).
    { destruct (Z.eq_dec bit 0) as [->|Hnz]; [apply Z.bits_0|].
      apply Z.bits_above_log2; [lia|].
      apply Z.lt_le_trans with 12; [|exact Hge].
      apply Z.log2_lt_pow2; [lia|]. change (2 ^ 12) with 4096. lia. }
    rewrite Hhigh. apply andb_false_r.
Qed.

Lemma access_clear_of_type_bits (fm c : Z) :
  Z.land (Z.land fm S_IRWXUGO) (Z.shiftl c 12) = 0.
Proof.
  apply Z.bits_inj'. intros n Hn. rewrite !Z.land_spec, Z.bits_0.
  destruct (Z.ltb_spec n 12) as [Hlt|Hge].
  - rewrite Z.shiftl_spec_low by exact Hlt. apply andb_false_r.
  - change S_IRWXUGO with (Z.ones 9).
    rewrite Z.testbit_ones_nonneg by lia.
    destruct (Z.ltb_spec n 9); [lia|]. rewrite andb_false_r. reflexivity.
Qed.

Lemma permission_bits_are_low (table : list (Z * string)) :
  List.In table Stat.permission_tables ->
  Forall (fun entry => 0 <= fst entry < 4096) table.
Proof.
  unfold Stat.permission_tables. cbn [List.In].
  intros Hin.
  repeat (destruct Hin as [<-|Hin];
          [repeat (constructor;
                   [vm_compute; split; [discriminate | reflexivity]|]);
           constructor|]).
  destruct Hin.
Qed.

Lemma permission_columns_rwx :
  forallb (fun n =>
             String.eqb
               (String.concat EmptyString
                  (map (Stat.filemode_column "-" (Z.of_nat n)) Stat.permission_tables))
               (rwx (Z.of_nat n)))
    (seq 0 512) = true.
Proof. vm_compute. reflexivity. Qed.

Lemma type_field_of_shown_mode (fm : Z) :
  Stat.S_IFMT (Z.lor (Stat.S_IFMT fm) (Z.land fm S_IRWXUGO)) = Stat.S_IFMT fm.
Proof.
  unfold Stat.S_IFMT. rewrite Z.land_lor_distr_l.
  rewrite <- Z.land_assoc, Z.land_diag.
  change (Py.oct "170000") with (Z.shiftl 15 12) at 2.
  rewrite access_clear_of_type_bits. apply Z.lor_0_r.
Qed.

Lemma filetype_column_unknown (format : Z) (table : list (Z * string)) :
  (forall known, List.In known table -> format <> fst known) ->
  Stat.filetype_column format table = "?".
Proof.
  induction table as [|[type char] table IH]; intros Hnone; [reflexivity|].
  cbn [Stat.filetype_column].
  destruct (Z.eqb_spec format type) as [Heq|_].
  - destruct (Hnone (type, char) (or_introl eq_refl)). exact Heq.
  - apply IH. intros known Hknown. apply Hnone. right; exact Hknown.
Qed.

(** X16. For a member created on Unix the mode shown in the progress
    line is the mode that is applied: after three spaces, one character
    for the file type, decided by the type field of the member's
    attributes as a whole (["-"] for a regular file, ["?"] for a type
    field that is no known type), then nine characters that are exactly
    the permission bits given to [os.chmod], ["r"], ["w"] or ["x"] for
    a set bit and ["-"] for a clear one; setuid, setgid and sticky bits
    of the archive are not shown. *)
Theorem echoed_mode_is_applied_mode (member : ZipInfo) :
  create_system member = 3 ->
  let filemode := Z.shiftr (external_attr member) 16 in
  let access := Z.land filemode S_IRWXUGO in
  fst (member_access member) = Some access /\
  snd (member_access member)
  = "   " ++ Stat.filetype_column (Stat.S_IFMT filemode) Stat.filetype_table
      ++ rwx access /\
  (Stat.S_IFMT filemode = Stat.S_IFREG ->
   snd (member_access member) = "   -" ++ rwx access) /\
  ((forall known, List.In known Stat.filetype_table ->
      Stat.S_IFMT filemode <> fst known) ->
   snd (member_access member) = "   ?" ++ rwx access).
Proof.
  intros Hunix filemode access.
  assert (Hshown : snd (member_access member)
                   = "   " ++ Stat.filetype_column (Stat.S_IFMT filemode)
                                Stat.filetype_table
                       ++ rwx access).
  { unfold member_access. rewrite Hunix.
    change (3 =? 3) with true. cbn [fst snd].
    fold filemode. fold access. f_equal. unfold Stat.filemode. f_equal.
    - unfold access. rewrite type_field_of_shown_mode. reflexivity.
    - transitivity (String.concat EmptyString
                      (map (Stat.filemode_column "-" access) Stat.permission_tables)).
      + f_equal. apply map_ext_in. intros table Hin.
        apply filemode_column_ext.
        pose proof (permission_bits_are_low table Hin) as Hlow. clear Hin.
        induction Hlow as [|[bit char] table' Hbit _ IH]; [constructor|].
        constructor; [|exact IH].
        cbn [fst] in *.
        rewrite Z.land_lor_distr_l, type_bits_clear_of_low by exact Hbit.
        reflexivity.
      + pose proof (access_range (external_attr member)) as Hrange.
        fold filemode in Hrange. fold access in Hrange.
        change (Py.oct "777") with 511 in Hrange.
        pose proof permission_columns_rwx as Hall.
        rewrite forallb_forall in Hall.
        specialize (Hall (Z.to_nat access)).
        rewrite Z2Nat.id in Hall by lia.
        apply String.eqb_eq, Hall, in_seq. lia. }
  split; [unfold member_access; rewrite Hunix; reflexivity|].
  split; [exact Hshown|]. split.
  - intros Hregular. rewrite Hshown, Hregular. reflexivity.
  - intros Hunknown. rewrite Hshown, (filetype_column_unknown _ _ Hunknown).
    reflexivity.
Qed.

Lemma echoed_mode_is_applied_mode_witness :
  let member := {| filename := "bin/tool"; create_system := 3;
                   external_attr := Z.shiftl (Py.oct "104755") 16;
                   payload := [] |} in
  let odd := {| filename := "odd"; create_system := 3;
                external_attr := Z.shiftl (Py.oct "110644") 16;
                payload := [] |} in
  create_system member = 3 /\
  fst (member_access member) = Some (Py.oct "755") /\
  Stat.S_IFMT (Z.shiftr (external_attr member) 16) = Stat.S_IFREG /\
  snd (member_access member) = "   -rwxr-xr-x" /\
  (forall known, List.In known Stat.filetype_table ->
     Stat.S_IFMT (Z.shiftr (external_attr odd) 16) <> fst known) /\
  snd (member_access odd) = "   ?rw-r--r--".
Proof.
  intros member odd.
  assert (Hodd : forall known, List.In known Stat.filetype_table ->
                   Stat.S_IFMT (Z.shiftr (external_attr odd) 16) <> fst known).
  { intros known Hknown. cbn in Hknown.
    repeat (destruct Hknown as [<-|Hknown]; [discriminate|]). destruct Hknown. }
  split; [reflexivity|].
  destruct (echoed_mode_is_applied_mode member eq_refl) as (Hacc & _ & Hregular & _).
  destruct (echoed_mode_is_applied_mode odd eq_refl) as (_ & _ & _ & Hunknown).
  split; [exact Hacc|]. split; [reflexivity|].
  split; [exact (Hregular eq_refl)|]. split; [exact Hodd|].
  exact (Hunknown Hodd).
Defined.

Lemma directory_rule_targets (source destination : string) :
  Py.endswith source "/" = true ->
  (forall f, fst (compile_rule source destination) f = true
             <-> exists rest, f = source ++ rest) /\
  (forall rest, snd (compile_rule source destination) (source ++ rest)
                = PosixPath.join destination rest).
Proof.
  intros Hend. unfold compile_rule.
  rewrite (endswith_sep_not_dot _ Hend), Hend. cbn [fst snd]. split.
  - intros f. apply startswith_iff.
  - intros rest. rewrite slice_from_app. reflexivity.
Qed.

(** ** [configure] and the client *)

(** X17. Every configuration that [configure] hands to be saved is one
    [get_gitlab] accepts: it never leads to the unknown-token-type
    error. Without [--token-type] the type is ["private"], so the
    client does not use a job token and [update] is not refused; a
    type outside the two choices is never saved. *)
Theorem configure_gives_a_usable_client (url_argument : string)
    (token_type_option : option string) (token_argument : string) :
  match configure url_argument token_type_option token_argument with
  | Some cfg =>
      gitlab_url cfg = url_argument /\ token cfg = token_argument /\
      (exists gitlab,
         get_gitlab cfg = inr gitlab /\
         (token_type_option = None -> is_using_job_token gitlab = false) /\
         (is_using_job_token gitlab = true <-> token_type_option = Some "job"))
  | None =>
      exists given, token_type_option = Some given /\
                    given <> "private" /\ given <> "job"
  end.
Proof.
  unfold configure.
  destruct token_type_option as [given|].
  - destruct (String.eqb_spec given "private") as [->|Hp].
    + cbn. repeat split; auto. eexists. split; [reflexivity|].
      split; [discriminate|]. cbn. split; discriminate.
    + destruct (String.eqb_spec given "job") as [->|Hj].
      * cbn. repeat split; auto. eexists. split; [reflexivity|].
        split; [discriminate|]. cbn. split; reflexivity.
      * cbn. exists given. repeat split; assumption.
  - cbn. repeat split; auto. eexists. split; [reflexivity|].
    split; [reflexivity|]. cbn. split; discriminate.
Qed.

Lemma configure_gives_a_usable_client_witness :
  exists cfg gitlab,
    configure "https://gitlab.example" None "t0k3n" = Some cfg /\
    get_gitlab cfg = inr gitlab /\ is_using_job_token gitlab = false.
Proof.
  pose proof (configure_gives_a_usable_client "https://gitlab.example" None "t0k3n")
    as Hcfg.
  cbn in Hcfg. destruct Hcfg as (_ & _ & gitlab & Hget & Hdefault & _).
  eexists. exists gitlab. split; [reflexivity|]. split; [exact Hget|].
  exact (Hdefault eq_refl).
Defined.

(** ** The directory that is created *)

Lemma endswith_sep_last (s : string) : Py.endswith s "/" = last_is_sep s.
Proof.
  unfold Py.endswith, Py.len. induction s as [|c s IH]; [reflexivity|].
  destruct s as [|c' s].
  - cbn. destruct (Ascii.eqb_spec c Py.sep) as [->|Hne]; [reflexivity|].
    destruct (Ascii.eqb_spec c "/"); [contradiction | reflexivity].
  - change (last_is_sep (String c (String c' s))) with (last_is_sep (String c' s)).
    rewrite <- IH.
    change (String.length (String c (String c' s))) with (S (S (String.length s))).
    change (String.length (String c' s)) with (S (String.length s)).
    change (String.length "/") with 1%nat.
    cbn [Nat.leb Nat.sub Py.slice_from andb]. rewrite Nat.sub_0_r. reflexivity.
Qed.

Lemma last_is_sep_app (a b : string) :
  b <> EmptyString -> last_is_sep (a ++ b) = last_is_sep b.
Proof.
  intros Hb. induction a as [|c a IH]; [reflexivity|].
  change (String c a ++ b) with (String c (a ++ b)).
  cbn [last_is_sep]. destruct (a ++ b) as [|c' rest] eqn:Hab.
  - destruct a; [cbn in Hab; contradiction | discriminate Hab].
  - exact IH.
Qed.

Lemma last_is_sep_contains (s : string) :
  last_is_sep s = true -> Py.contains Py.sep s = true.
Proof.
  induction s as [|c s IH]; [discriminate|].
  cbn [last_is_sep Py.contains]. destruct s as [|c' s].
  - intros ->. reflexivity.
  - intros Hlast. rewrite (IH Hlast). apply orb_true_r.
Qed.

Lemma rfind_succ_no_sep (s : string) :
  Py.contains Py.sep s = false -> Py.rfind_succ Py.sep s = O.
Proof.
  induction s as [|c s IH]; [reflexivity|].
  cbn [Py.contains Py.rfind_succ]. intros Hnone.
  apply orb_false_elim in Hnone as [Hc Hs]. rewrite (IH Hs), Hc. reflexivity.
Qed.

Lemma rfind_succ_last_sep (d rest : string) :
  Py.contains Py.sep rest = false ->
  Py.rfind_succ Py.sep (d ++ "/" ++ rest) = S (String.length d).
Proof.
  intros Hrest. induction d as [|c d IH].
  - change (EmptyString ++ "/" ++ rest) with (String "/" rest).
    cbn [Py.rfind_succ]. rewrite (rfind_succ_no_sep rest Hrest). reflexivity.
  - change (String c d ++ "/" ++ rest) with (String c (d ++ "/" ++ rest)).
    cbn [Py.rfind_succ String.length]. rewrite IH. reflexivity.
Qed.

Lemma slice_to_app (d rest : string) :
  Py.slice_to (d ++ rest) (String.length d) = d.
Proof.
  induction d as [|c d IH]; [destruct rest; reflexivity|].
  change (String c d ++ rest) with (String c (d ++ rest)).
  cbn [String.length Py.slice_to]. rewrite IH. reflexivity.
Qed.

Lemma rstrip_one_sep (d : string) :
  d <> EmptyString -> last_is_sep d = false ->
  Py.rstrip Py.sep (d ++ "/") = d /\ Py.all_char Py.sep (d ++ "/") = false.
Proof.
  induction d as [|c d IH]; [contradiction|]. intros _ Hlast.
  change (String c d ++ "/") with (String c (d ++ "/")).
  cbn [Py.rstrip Py.all_char]. destruct d as [|c' d].
  - cbn in Hlast |- *. rewrite Hlast. split; reflexivity.
  - assert (Hne : String c' d <> EmptyString) by discriminate.
    destruct (IH Hne Hlast) as [Hstrip Hall]. rewrite Hstrip, Hall.
    split; [reflexivity | apply andb_false_r].
Qed.

Lemma no_separator_is_relative (rest : string) :
  Py.contains Py.sep rest = false -> PosixPath.isabs rest = false.
Proof.
  unfold PosixPath.isabs, Py.startswith. destruct rest as [|c rest]; [reflexivity|].
  intros Hnone. cbn in Hnone. apply orb_false_elim in Hnone as [Hc _].
  cbn [String.prefix].
  destruct (ascii_dec "/" c) as [<-|_]; [discriminate Hc | reflexivity].
Qed.

Lemma dirname_of_child (d rest : string) :
  d <> EmptyString -> Py.endswith d "/" = false ->
  Py.contains Py.sep rest = false ->
  PosixPath.dirname (d ++ "/" ++ rest) = d.
Proof.
  intros Hne Hend Hrest. rewrite endswith_sep_last in Hend.
  unfold PosixPath.dirname. rewrite (rfind_succ_last_sep d rest Hrest).
  assert (Hhead : Py.slice_to (d ++ "/" ++ rest) (S (String.length d)) = d ++ "/").
  { clear Hne Hend. induction d as [|c d IH]; [destruct rest; reflexivity|].
    change (String c d ++ "/" ++ rest) with (String c (d ++ "/" ++ rest)).
    change (String.length (String c d)) with (S (String.length d)).
    cbn [Py.slice_to]. rewrite IH. reflexivity. }
  rewrite Hhead. destruct (rstrip_one_sep d Hne Hend) as [Hstrip Hall].
  rewrite Hall, Hstrip.
  destruct (String.eqb_spec (d ++ "/") EmptyString) as [Hempty|_]; [|reflexivity].
  destruct d; discriminate Hempty.
Qed.

(** X18. A file directly under the pattern of a directory rule lands
    directly in the destination, and the destination is the one
    directory created for it: for a destination that is not empty and
    does not end in the separator and a member [source ++ rest] with
    [rest] not empty and free of separators, the one installation of
    the member goes to [destination/rest], after a single [mkdirs] of
    [destination]. *)
Theorem directory_rule_creates_destination (source destination rest : string)
    (archive : ZipFile) (member : ZipInfo) (t : list call) :
  Py.endswith source "/" = true ->
  destination <> EmptyString -> Py.endswith destination "/" = false ->
  rest <> EmptyString -> Py.contains Py.sep rest = false ->
  filename member = source ++ rest ->
  let target := destination ++ "/" ++ rest in
  snd (compile_rule source destination) (filename member) = target /\
  PosixPath.dirname target = destination /\
  exec (install_one (os:=trace_os) [compile_rule source destination] archive member) t
  = (t ++ member_calls archive member target)%list /\
  exists line,
    member_calls archive member target
    = ([Echo line; Mkdirs destination; WriteFile target (payload member)]
       ++ match fst (member_access member) with
          | Some a => [Chmod target a]
          | None => []
          end)%list.
Proof.
  intros Hsource Hne Hend Hrest Hnosep Hname target.
  assert (Hrel : PosixPath.isabs rest = false)
    by (apply no_separator_is_relative, Hnosep).
  assert (Htarget : snd (compile_rule source destination) (filename member) = target).
  { destruct (directory_rule_targets source destination Hsource) as [_ Htranslate].
    rewrite Hname, Htranslate. apply join_relative; assumption. }
  assert (Hmatch : fst (compile_rule source destination) (filename member) = true).
  { destruct (directory_rule_targets source destination Hsource) as [Hmatches _].
    apply Hmatches. exists rest. exact Hname. }
  assert (Hfile : Py.endswith (filename member) "/" = false).
  { rewrite Hname, endswith_sep_last, last_is_sep_app by exact Hrest.
    destruct (last_is_sep rest) eqn:Hlast; [|reflexivity].
    apply last_is_sep_contains in Hlast. congruence. }
  assert (Hdir : PosixPath.dirname target = destination)
    by (apply dirname_of_child; assumption).
  split; [exact Htarget|]. split; [exact Hdir|]. split.
  - unfold exec. rewrite trace_install_one, Hfile. unfold matching.
    cbn [List.filter]. rewrite Hmatch. cbn [flat_map]. rewrite Htarget, app_nil_r.
    reflexivity.
  - unfold member_calls. rewrite Hdir.
    assert (Hsep : Py.contains Py.sep target = true).
    { unfold target. rewrite contains_app. cbn. apply orb_true_r. }
    rewrite Hsep. eexists. reflexivity.
Qed.

Lemma directory_rule_creates_destination_witness :
  Py.endswith "lib/" "/" = true /\ "vendor" <> EmptyString /\
  Py.endswith "vendor" "/" = false /\ "x.so" <> EmptyString /\
  Py.contains Py.sep "x.so" = false /\
  filename Sample.x_so = "lib/" ++ "x.so" /\
  PosixPath.dirname ("vendor" ++ "/" ++ "x.so") = "vendor" /\
  exec (install_one (os:=trace_os) [compile_rule "lib/" "vendor"]
          [Sample.x_so] Sample.x_so) []
  = member_calls [Sample.x_so] Sample.x_so "vendor/x.so".
Proof.
  assert (Hd : "vendor" <> EmptyString) by discriminate.
  assert (Hr : "x.so" <> EmptyString) by discriminate.
  destruct (directory_rule_creates_destination "lib/" "vendor" "x.so"
              [Sample.x_so] Sample.x_so [] eq_refl Hd eq_refl Hr eq_refl eq_refl)
    as (_ & Hdir & Hrun & _).
  repeat (split; [first [reflexivity | assumption]|]).
  exact Hrun.
Defined.
